(** * Asset reader pipeline and camera clip planes

    A shallow embedding of
    - [runtime::asset_reader] (src/engine/runtime/assets/asset_reader.cpp):
      the two-stage fetch/materialize loaders of the six resource kinds and
      the in-memory shader loader;
    - [Camera::setNearClip] / [Camera::setFarClip]
      (src/Engine/Source/Runtime/Rendering/Camera.cpp).

    Shared objects ([std::shared_ptr] targets) live in an explicit store so
    that aliasing between the two closures of a load and the caller's handle
    is visible; lambdas are defunctionalised into their capture lists. *)

From Stdlib Require Import ZArith String List Bool Strings.Byte.
From Stdlib Require Import Floats.SpecFloat.
From stdpp Require Import gmap strings list.

(** ** Camera (Camera.cpp) *)

Module Camera.

(** A C [float] is an IEEE-754 value; the clip-plane setters only store
    and compare floats, so the format-independent [spec_float] with the
    IEEE comparisons is enough (binary32 values are the [spec_float]s
    that are valid for precision 24). *)
Definition float := spec_float.

(** [a == b] on floats. *)
Definition feq (a b : float) : bool := SFeqb a b.
(** [a > b] on floats. *)
Definition fgt (a b : float) : bool := SFltb b a.
(** [a <= b] on floats. *)
Definition fle (a b : float) : bool := SFleb a b.

Definition is_nan (a : float) : bool :=
  match a with S754_nan => true | _ => false end.

(** The members of [Camera] that the clip-plane setters read or write. *)
Record Camera := mkCamera {
  mNearClip : float;
  mFarClip : float;
  mViewDirty : bool;
  mProjectionDirty : bool;
  mFrustumDirty : bool
}.

(** [Camera::onModified] *)
Definition onModified (c : Camera) : Camera :=
  {| mNearClip := mNearClip c;
     mFarClip := mFarClip c;
     mViewDirty := true;
     mProjectionDirty := true;
     mFrustumDirty := true |}.

Definition storeNear (d : float) (c : Camera) : Camera :=
  {| mNearClip := d;
     mFarClip := mFarClip c;
     mViewDirty := mViewDirty c;
     mProjectionDirty := mProjectionDirty c;
     mFrustumDirty := mFrustumDirty c |}.

Definition storeFar (d : float) (c : Camera) : Camera :=
  {| mNearClip := mNearClip c;
     mFarClip := d;
     mViewDirty := mViewDirty c;
     mProjectionDirty := mProjectionDirty c;
     mFrustumDirty := mFrustumDirty c |}.

(** [Camera::setNearClip] and [Camera::setFarClip] call each other; the
    recursion is on a call-depth budget, [None] meaning the budget ran
    out before the call returned. *)
Fixpoint setNearClip (depth : nat) (fDistance : float) (c : Camera)
  : option Camera :=
  match depth with
  | O => None
  | S depth' =>
      (* Skip if this is a no-op *)
      if feq fDistance (mNearClip c) then Some c
      else
        (* Store value *)
        let c := storeNear fDistance c in
        let c := onModified c in
        (* Make sure near clip is less than the far clip *)
        if fgt (mNearClip c) (mFarClip c)
        then setFarClip depth' (mNearClip c) c
        else Some c
  end
with setFarClip (depth : nat) (fDistance : float) (c : Camera)
  : option Camera :=
  match depth with
  | O => None
  | S depth' =>
      (* Skip if this is a no-op *)
      if feq fDistance (mFarClip c) then Some c
      else
        (* Store value *)
        let c := storeFar fDistance c in
        let c := onModified c in
        (* Make sure near clip is less than the far clip *)
        if fgt (mNearClip c) (mFarClip c)
        then setNearClip depth' (mFarClip c) c
        else Some c
  end.

(** The clip-plane invariant. *)
Definition clip_ordered (c : Camera) : Prop :=
  fle (mNearClip c) (mFarClip c) = true.

(** A camera with near plane 1 and far plane 8, and the distance 32. *)
Definition sample_camera : Camera :=
  mkCamera (S754_finite false 1 0) (S754_finite false 1 3)
    false false false.

Definition sample_distance : float := S754_finite false 1 5.

End Camera.

(** ** Asset reader (asset_reader.cpp): data model *)

Module runtime.

(** The resource kinds [load_from_file] is specialised for. *)
Inductive kind := texture | shader | mesh | material | prefab | scene.

#[export] Instance kind_eq_dec : EqDecision kind.
Proof. solve_decision. Defined.

(** [enum class load_mode] *)
Inductive load_mode := sync | async.

#[export] Instance load_mode_eq_dec : EqDecision load_mode.
Proof. solve_decision. Defined.

(** Addresses of objects owned through [std::shared_ptr]. *)
Abbreviation loc := nat (only parsing).

(** [fs::byte_array_t], a [std::vector<std::uint8_t>]. *)
Abbreviation byte_array_t := (list byte) (only parsing).

(** [gfx::Memory]: a native block with its 32-bit size. *)
Record Memory := mkMemory { mem_data : byte_array_t; mem_size : Z }.

Abbreviation ShaderHandle := Z (only parsing).
Abbreviation UniformHandle := Z (only parsing).

(** [texture], as built by [texture(mem, flags, skip, info)]. *)
Record texture_t := mk_texture {
  tex_mem : Memory; tex_flags : Z; tex_skip : Z }.

(** [uniform]: the handle it was populated with. *)
Record uniform_t := mk_uniform { uni_handle : UniformHandle }.

(** [shader]: the native handle and the attached uniform objects. *)
Record shader_t := mk_shader {
  shdr_handle : ShaderHandle; shdr_uniforms : list uniform_t }.

(** [mesh::load_data]; the sub-sections are kept as raw sequences, the
    loaders only pass them on. *)
Record load_data := mk_load_data {
  vertex_format : Z;
  vertex_data : byte_array_t;
  vertex_count : Z;
  triangle_data : list Z;
  skin_data : list Z;
  root_node : option Z }.

(** A default-constructed [mesh::load_data]. *)
Definition empty_load_data : load_data :=
  mk_load_data 0 [] 0 [] [] None.

(** [mesh_status] *)
Inductive mesh_status := not_prepared | preparing | prepared.

#[export] Instance mesh_status_eq_dec : EqDecision mesh_status.
Proof. solve_decision. Defined.

(** The member functions of [mesh] the loaders call.  The class itself
    is outside the translated sources, so a mesh object is the sequence
    of calls it has received; its status is read off that sequence by
    the environment. *)
Inductive mesh_call :=
| prepare_mesh (format : Z)
| set_vertex_source (source : byte_array_t) (count : Z) (format : Z)
| add_primitives (triangles : list Z)
| bind_skin (skin : list Z)
| bind_armature (root : option Z)
| end_prepare (hardware_copy build_buffers weld optimize : bool)
| build_vb
| build_ib.

Abbreviation mesh_t := (list mesh_call) (only parsing).

(** [material]: the decoded associative document; default-constructed it
    is empty. *)
Abbreviation material_t := (list (string * string)) (only parsing).

(** [prefab] and [scene] keep the shared input stream. *)
Record prefab_t := mk_prefab { prefab_data : option loc }.
Record scene_t := mk_scene { scene_data : option loc }.

(** What the [asset] pointer of a link can point to. *)
Inductive resource :=
| res_texture (t : texture_t)
| res_shader (s : shader_t)
| res_mesh (m : mesh_t)
| res_material (m : material_t)
| res_prefab (p : prefab_t)
| res_scene (s : scene_t).

(** [asset_link<T>]: the cell shared by all copies of a handle. *)
Record asset_link := mk_link { id : string; asset : option resource }.

(** [asset_handle<T>]: a shared pointer to its link. *)
Record asset_handle := mk_handle { link : loc }.

(** A freshly constructed link. *)
Definition empty_link : asset_link := mk_link "" None.

(** The two execution contexts of the task system. *)
Inductive lane := worker_lane | main_lane.

#[export] Instance lane_eq_dec : EqDecision lane.
Proof. solve_decision. Defined.

(** Calls into collaborators, recorded in program order. *)
Inductive call :=
| fs_open_call (path : string)
| archive_load_call (k : kind)
| mesh_member_call (c : mesh_call)
| gfx_copy_call
| gfx_createTexture_call
| gfx_createShader_call
| gfx_getShaderUniforms_call
| gfx_getUniformInfo_call.

(** The calls that reach the native graphics API: the [gfx::] functions,
    the constructors and [populate] members wrapping them, and the two
    buffer builders of [mesh].  The other members of [mesh] accumulate the
    data on the CPU side ([end_prepare] is called with [build_buffers]
    off). *)
Definition is_graphics_api (c : call) : bool :=
  match c with
  | fs_open_call _ | archive_load_call _ => false
  | mesh_member_call build_vb | mesh_member_call build_ib => true
  | mesh_member_call _ => false
  | gfx_copy_call | gfx_createTexture_call | gfx_createShader_call
  | gfx_getShaderUniforms_call | gfx_getUniformInfo_call => true
  end.

(** Values carried by task futures. *)
Inductive value := v_bool (b : bool) | v_handle (h : asset_handle).

(** The lambdas of the file with their capture lists.
    [read_memory_func k p path] is the Fetch lambda of
    [load_from_file<k>] ([p] is [read_memory] or [wrapper]);
    [create_resource_func k result p key] its Materialize lambda;
    [memory_create_resource_func] the lambda of [load_from_memory<shader>]. *)
Inductive closure :=
| read_memory_func (k : kind) (p : option loc) (compiled_absolute_key : string)
| create_resource_func (k : kind) (result : asset_handle) (p : option loc)
    (key : string)
| memory_create_resource_func (key : string) (data : option byte_array_t)
    (size : Z).

(** A future is the position of its task in the queue. *)
Abbreviation future := nat (only parsing).

(** Modelled from the spec: the task system ([core/subsystem/tasks.hpp] is
    not among the translated sources).  A task is a single-fire cell: the
    lane it was submitted to, the future it waits for if it is a
    continuation, its unit of work and, once run, its value. *)
Record task := mk_task {
  task_lane : lane;
  task_after : option future;
  task_work : closure;
  task_value : option value }.

(** Undefined behaviour the translated code can reach. *)
Inductive fault :=
| null_pointer
| out_of_range (index size : nat)
| bad_argument.

(** The store: shared objects by region, the task system, the lane the
    running code executes on, the calls made so far (with their lane),
    and whether execution has gone wrong. *)
Record machine := mk_machine {
  links : gmap loc asset_link;
  buffers : gmap loc byte_array_t;
  meshes : gmap loc mesh_t;
  materials : gmap loc material_t;
  tasks : list task;
  lane_now : lane;
  log : list (lane * call);
  crashed : option fault }.

(** The modes in which the loaders open a file: [std::ios::in] of the
    [std::ifstream]s, and [std::fstream::in | std::fstream::out] of the
    [std::fstream]s, both with [std::ios::binary]. *)
Inductive openmode := ios_in | ios_in_out.

(** The collaborators outside the translated sources: path resolution,
    the file system (the files that exist, and which of them may be
    opened for writing), the decoders and the graphics binding layer. *)
Record environment := mk_environment {
  resolve : string -> string;
  get_compiled_format : kind -> string;
  files : gmap string byte_array_t;
  writable : string -> bool;
  decode_mesh : byte_array_t -> option load_data;
  decode_material : byte_array_t -> option material_t;
  copy : option byte_array_t -> Z -> option Memory;
  createShader : Memory -> ShaderHandle;
  reflected_uniforms : ShaderHandle -> list UniformHandle;
  get_status : mesh_t -> mesh_status }.

(** ** Execution monad: store passing with undefined behaviour *)

Inductive outcome (A : Type) :=
| ok (a : A)
| ub (f : fault).
Arguments ok {A} a.
Arguments ub {A} f.

Definition M (A : Type) : Type := machine -> outcome A * machine.

Definition ret {A} (a : A) : M A := fun m => (ok a, m).

Definition raise {A} (f : fault) : M A := fun m => (ub f, m).

Definition bind {A B} (c : M A) (k : A -> M B) : M B :=
  fun m =>
    match c m with
    | (ok a, m') => k a m'
    | (ub f, m') => (ub f, m')
    end.

#[export] Instance M_ret : MRet M := @ret.
#[export] Instance M_bind : MBind M := fun A B k c => bind c k.

Definition set_links (f : gmap loc asset_link -> gmap loc asset_link)
  (m : machine) : machine :=
  mk_machine (f (links m)) (buffers m) (meshes m) (materials m)
    (tasks m) (lane_now m) (log m) (crashed m).

Definition set_buffers (f : gmap loc byte_array_t -> gmap loc byte_array_t)
  (m : machine) : machine :=
  mk_machine (links m) (f (buffers m)) (meshes m) (materials m)
    (tasks m) (lane_now m) (log m) (crashed m).

Definition set_meshes (f : gmap loc mesh_t -> gmap loc mesh_t)
  (m : machine) : machine :=
  mk_machine (links m) (buffers m) (f (meshes m)) (materials m)
    (tasks m) (lane_now m) (log m) (crashed m).

Definition set_materials (f : gmap loc material_t -> gmap loc material_t)
  (m : machine) : machine :=
  mk_machine (links m) (buffers m) (meshes m) (f (materials m))
    (tasks m) (lane_now m) (log m) (crashed m).

Definition set_tasks (f : list task -> list task) (m : machine) : machine :=
  mk_machine (links m) (buffers m) (meshes m) (materials m)
    (f (tasks m)) (lane_now m) (log m) (crashed m).

Definition set_lane (l : lane) (m : machine) : machine :=
  mk_machine (links m) (buffers m) (meshes m) (materials m)
    (tasks m) l (log m) (crashed m).

Definition set_crashed (f : fault) (m : machine) : machine :=
  mk_machine (links m) (buffers m) (meshes m) (materials m)
    (tasks m) (lane_now m) (log m) (Some f).

(** Record a call on the lane the running code is on. *)
Definition emit (c : call) : M unit :=
  fun m =>
    (ok tt,
     mk_machine (links m) (buffers m) (meshes m) (materials m)
       (tasks m) (lane_now m) (log m ++ [(lane_now m, c)]) (crashed m)).

(** *** Shared objects *)

(** [std::make_shared<fs::byte_array_t>()] and
    [std::make_shared<std::istringstream>()]: a fresh empty buffer.  An
    input stream is represented by the bytes it reads from. *)
Definition make_shared_buffer : M loc :=
  fun m =>
    let p := fresh (dom (buffers m)) in
    (ok p, set_buffers (insert p []) m).

(** Reading through a non-null buffer pointer. *)
Definition buffer_at (p : loc) : M byte_array_t :=
  fun m =>
    match buffers m !! p with
    | Some bytes => (ok bytes, m)
    | None => (ub null_pointer, m)
    end.

(** Assigning through a buffer pointer. *)
Definition buffer_assign (p : loc) (bytes : byte_array_t) : M unit :=
  fun m => (ok tt, set_buffers (insert p bytes) m).

(** [wrapper = make_shared<wrapper_t>(); wrapper->mesh = make_shared<mesh>()] *)
Definition make_shared_mesh_wrapper : M loc :=
  fun m =>
    let p := fresh (dom (meshes m)) in
    (ok p, set_meshes (insert p []) m).

(** [wrapper = make_shared<wrapper_t>(); wrapper->material = make_shared<material>()] *)
Definition make_shared_material_wrapper : M loc :=
  fun m =>
    let p := fresh (dom (materials m)) in
    (ok p, set_materials (insert p []) m).

(** [wrapper->mesh] *)
Definition wrapper_mesh (wrapper : option loc) : M mesh_t :=
  fun m =>
    match wrapper with
    | None => (ub null_pointer, m)
    | Some p =>
        match meshes m !! p with
        | Some obj => (ok obj, m)
        | None => (ub null_pointer, m)
        end
    end.

Definition wrapper_mesh_assign (wrapper : option loc) (obj : mesh_t)
  : M unit :=
  fun m =>
    match wrapper with
    | Some p => (ok tt, set_meshes (insert p obj) m)
    | None => (ub null_pointer, m)
    end.

(** [wrapper->mesh->c(...)]: the object receives the call. *)
Definition mesh_invoke (wrapper : option loc) (c : mesh_call) : M unit :=
  obj ← wrapper_mesh wrapper;
  emit (mesh_member_call c);;
  wrapper_mesh_assign wrapper (obj ++ [c]).

(** [wrapper->material] *)
Definition wrapper_material (wrapper : option loc) : M material_t :=
  fun m =>
    match wrapper with
    | None => (ub null_pointer, m)
    | Some p =>
        match materials m !! p with
        | Some obj => (ok obj, m)
        | None => (ub null_pointer, m)
        end
    end.

Definition wrapper_material_assign (wrapper : option loc) (obj : material_t)
  : M unit :=
  fun m =>
    match wrapper with
    | Some p => (ok tt, set_materials (insert p obj) m)
    | None => (ub null_pointer, m)
    end.

(** The link a handle points to; a handle always owns a link, cells never
    written hold a freshly constructed one. *)
Definition link_of (m : machine) (h : asset_handle) : asset_link :=
  default empty_link (links m !! link h).

(** [result.link->id = key] *)
Definition link_set_id (h : asset_handle) (key : string) : M unit :=
  fun m =>
    (ok tt,
     set_links (insert (link h) (mk_link key (asset (link_of m h)))) m).

(** [result.link->asset = r] *)
Definition link_set_asset (h : asset_handle) (r : resource) : M unit :=
  fun m =>
    (ok tt,
     set_links (insert (link h) (mk_link (id (link_of m h)) (Some r))) m).

(** [asset_handle<T> result;]: a handle on a link of its own, taken to be
    a location at which the store has no link.  A handle whose link was
    never written has no entry in the store either, so nothing is derived
    below from the new link being distinct from such a handle's. *)
Definition new_handle : M asset_handle :=
  fun m =>
    let p := fresh (dom (links m)) in
    (ok (mk_handle p), set_links (insert p empty_link) m).

(** [&v[i]] on a vector: the elements from [i] on; indexing past the end
    is undefined. *)
Definition element_address {A} (v : list A) (i : nat) : M (list A) :=
  match v !! i with
  | Some _ => ret (drop i v)
  | None => raise (out_of_range i (length v))
  end.

(** [v.empty()] *)
Definition vector_empty {A} (v : list A) : bool :=
  match v with [] => true | _ :: _ => false end.

(** [static_cast<std::uint32_t>(n)] *)
Definition to_uint32 (n : nat) : Z := (Z.of_nat n mod 2 ^ 32)%Z.

(** ** Collaborators and the closures of each loader *)

Section Loaders.

Variable E : environment.

(** What a stream opened on [path] reads.  A stream opened with
    [std::ios::in] reads the bytes of the file, and nothing when the file
    is missing.  Opening with [in | out] does not create a missing file,
    and fails when the file may not be written; a stream that failed to
    open reads nothing. *)
Definition stream_bytes (mode : openmode) (path : string) : byte_array_t :=
  match mode with
  | ios_in => default [] (files E !! path)
  | ios_in_out =>
      if writable E path then default [] (files E !! path) else []
  end.

(** Modelled from the spec: the byte-stream reader.  Opening
    [std::ifstream{path, mode}] or [std::fstream{path, mode}] and
    [fs::read_stream] on it give what the stream reads. *)
Definition open_stream (mode : openmode) (path : string) : M byte_array_t :=
  emit (fs_open_call path);;
  mret (stream_bytes mode path).

Definition read_stream (stream : byte_array_t) : byte_array_t := stream.

(** Modelled from the spec: the structured-document decoder behind
    [try_load(ar, cereal::make_nvp(name, target))].  It decodes the
    archive into [target] and leaves [target] as it was when the
    archive cannot be decoded; nothing is thrown to the caller. *)
Definition try_load {A} (k : kind) (decode : byte_array_t -> option A)
  (ar : byte_array_t) (target : A) : M (A * bool) :=
  emit (archive_load_call k);;
  mret (match decode ar with
        | Some decoded => (decoded, true)
        | None => (target, false)
        end).

(** [gfx::copy(data, size)] *)
Definition gfx_copy (data : option byte_array_t) (size : Z)
  : M (option Memory) :=
  emit gfx_copy_call;;
  mret (copy E data size).

(** [std::make_shared<texture>(mem, 0, 0, nullptr)] *)
Definition make_shared_texture (mem : Memory) (flags skip : Z)
  : M texture_t :=
  emit gfx_createTexture_call;;
  mret (mk_texture mem flags skip).

(** [shdr->populate(mem)] on a fresh [shader]: the native handle. *)
Definition shader_populate (mem : Memory) : M ShaderHandle :=
  emit gfx_createShader_call;;
  mret (createShader E mem).

(** The handles written through [_uniforms]: as many as fit. *)
Fixpoint write_handles (src dst : list UniformHandle)
  : list UniformHandle :=
  match src, dst with
  | x :: src', _ :: dst' => x :: write_handles src' dst'
  | _, _ => dst
  end.

(** Modelled from the spec: [queryReflectedUniforms], that is
    [gfx::getShaderUniforms(handle, _uniforms, _max)].  It returns the
    number of uniforms the shader reflects and writes at most [_max]
    of their handles, in reflection order, to [_uniforms]. *)
Definition gfx_getShaderUniforms (handle : ShaderHandle)
  (_uniforms : list UniformHandle) (_max : nat)
  : M (nat * list UniformHandle) :=
  emit gfx_getShaderUniforms_call;;
  let found := reflected_uniforms E handle in
  mret (length found, write_handles (take _max found) _uniforms).

(** A default-constructed [gfx::UniformHandle] (the invalid index). *)
Definition invalid_handle : UniformHandle := 65535%Z.

(** [hUniform->populate(uni)] on a fresh [uniform]. *)
Definition uniform_populate (uni : UniformHandle) : M uniform_t :=
  emit gfx_getUniformInfo_call;;
  mret (mk_uniform uni).

(** [for (auto& uni : uniforms) { ...; shdr->uniforms.push_back(hUniform); }] *)
Fixpoint push_back_uniforms (uniforms : list UniformHandle)
  (shdr_uniforms : list uniform_t) : M (list uniform_t) :=
  match uniforms with
  | [] => mret shdr_uniforms
  | uni :: rest =>
      hUniform ← uniform_populate uni;
      push_back_uniforms rest (shdr_uniforms ++ [hUniform])
  end.

(** The part of both shader lambdas under [if (nullptr != mem)], up to
    the writes to the link: the populated shader object. *)
Definition populate_shader (mem : Memory) : M shader_t :=
  handle ← shader_populate mem;
  '(uniform_count, _) ← gfx_getShaderUniforms handle [] 0;
  if (0 <? uniform_count)%nat then
    let uniforms := replicate uniform_count invalid_handle in
    first ← element_address uniforms 0;
    '(_, uniforms) ← gfx_getShaderUniforms handle first uniform_count;
    shdr_uniforms ← push_back_uniforms uniforms [];
    mret (mk_shader handle shdr_uniforms)
  else
    mret (mk_shader handle []).

(** *** [load_from_file<texture>] *)

Definition texture_read_memory_func (read_memory : option loc)
  (compiled_absolute_key : string) : M bool :=
  match read_memory with
  | None => mret false
  | Some p =>
      stream ← open_stream ios_in compiled_absolute_key;
      buffer_assign p (read_stream stream);;
      mret true
  end.

Definition texture_create_resource_func (result : asset_handle)
  (read_memory : option loc) (key : string) (read_result : bool)
  : M (asset_handle * option loc) :=
  match read_memory with
  | None => mret (result, read_memory)     (* someone destroyed our memory *)
  | Some p =>
      bytes ← buffer_at p;
      if vector_empty bytes then mret (result, read_memory)
      else
        mem ← gfx_copy (Some bytes) (to_uint32 (length bytes));
        buffer_assign p [];;                 (* read_memory->clear() *)
        let read_memory := None in           (* read_memory.reset() *)
        match mem with
        | Some mem =>
            tex ← make_shared_texture mem 0 0;
            link_set_id result key;;
            link_set_asset result (res_texture tex);;
            mret (result, read_memory)
        | None => mret (result, read_memory)
        end
  end.

(** *** [load_from_file<shader>] *)

Definition shader_read_memory_func (read_memory : option loc)
  (compiled_absolute_key : string) : M bool :=
  match read_memory with
  | None => mret false
  | Some p =>
      stream ← open_stream ios_in compiled_absolute_key;
      buffer_assign p (read_stream stream);;
      mret true
  end.

Definition shader_create_resource_func (result : asset_handle)
  (read_memory : option loc) (key : string) (read_result : bool)
  : M (asset_handle * option loc) :=
  match read_memory with
  | None => mret (result, read_memory)
  | Some p =>
      bytes ← buffer_at p;
      if vector_empty bytes then mret (result, read_memory)
      else
        mem ← gfx_copy (Some bytes) (to_uint32 (length bytes));
        buffer_assign p [];;
        let read_memory := None in
        match mem with
        | Some mem =>
            shdr ← populate_shader mem;
            link_set_id result key;;
            link_set_asset result (res_shader shdr);;
            mret (result, read_memory)
        | None => mret (result, read_memory)
        end
  end.

(** *** [load_from_file<mesh>] *)

Definition mesh_read_memory_func (wrapper : option loc)
  (compiled_absolute_key : string) : M bool :=
  let data := empty_load_data in
  stream ← open_stream ios_in compiled_absolute_key;
  '(data, _) ← try_load mesh (decode_mesh E) stream data;
  mesh_invoke wrapper (prepare_mesh (vertex_format data));;
  source ← element_address (vertex_data data) 0;
  mesh_invoke wrapper
    (set_vertex_source source (vertex_count data) (vertex_format data));;
  mesh_invoke wrapper (add_primitives (triangle_data data));;
  mesh_invoke wrapper (bind_skin (skin_data data));;
  mesh_invoke wrapper (bind_armature (root_node data));;
  mesh_invoke wrapper (end_prepare true false false false);;
  mret true.

Definition mesh_create_resource_func (result : asset_handle)
  (wrapper : option loc) (key : string) (read_result : bool)
  : M (asset_handle * option loc) :=
  (* Build the mesh *)
  mesh_invoke wrapper build_vb;;
  mesh_invoke wrapper build_ib;;
  built ← wrapper_mesh wrapper;
  (if decide (get_status E built = prepared) then
     link_set_id result key;;
     link_set_asset result (res_mesh built)
   else mret tt);;
  let wrapper := None in                     (* wrapper.reset() *)
  mret (result, wrapper).

(** *** [load_from_file<material>] *)

Definition material_read_memory_func (wrapper : option loc)
  (compiled_absolute_key : string) : M bool :=
  stream ← open_stream ios_in compiled_absolute_key;
  target ← wrapper_material wrapper;
  '(loaded, _) ← try_load material (decode_material E) stream target;
  wrapper_material_assign wrapper loaded;;
  mret true.

Definition material_create_resource_func (result : asset_handle)
  (wrapper : option loc) (key : string) (read_result : bool)
  : M (asset_handle * option loc) :=
  published ← wrapper_material wrapper;
  link_set_id result key;;
  link_set_asset result (res_material published);;
  let wrapper := None in                     (* wrapper.reset() *)
  mret (result, wrapper).

(** *** [load_from_file<prefab>] *)

Definition prefab_read_memory_func (read_memory : option loc)
  (compiled_absolute_key : string) : M bool :=
  match read_memory with
  | None => mret false
  | Some p =>
      stream ← open_stream ios_in_out compiled_absolute_key;
      let mem := read_stream stream in
      buffer_assign p mem;;
      mret true
  end.

Definition prefab_create_resource_func (result : asset_handle)
  (read_memory : option loc) (key : string) (read_result : bool)
  : M (asset_handle * option loc) :=
  let pfab := mk_prefab read_memory in       (* pfab->data = read_memory *)
  link_set_id result key;;
  link_set_asset result (res_prefab pfab);;
  mret (result, read_memory).

(** *** [load_from_file<scene>] *)

Definition scene_read_memory_func (read_memory : option loc)
  (compiled_absolute_key : string) : M bool :=
  match read_memory with
  | None => mret false
  | Some p =>
      stream ← open_stream ios_in_out compiled_absolute_key;
      let mem := read_stream stream in
      buffer_assign p mem;;
      mret true
  end.

Definition scene_create_resource_func (result : asset_handle)
  (read_memory : option loc) (key : string) (read_result : bool)
  : M (asset_handle * option loc) :=
  let sc := mk_scene read_memory in          (* sc->data = read_memory *)
  link_set_id result key;;
  link_set_asset result (res_scene sc);;
  mret (result, read_memory).

(** *** [load_from_memory<shader>] *)

(** The lambda [[&key, data, size]() mutable].  The source captures [key]
    by reference; the model passes the string the reference denotes, and
    so describes a call of the lambda made while the caller's string is
    alive.  Whether [data] holds [size] bytes is left to [gfx::copy]. *)
Definition shader_memory_create_resource_func (key : string)
  (data : option byte_array_t) (size : Z) : M asset_handle :=
  result ← new_handle;
  (* if nothing was read *)
  if bool_decide (data = None) && (size =? 0)%Z then mret result
  else
    mem ← gfx_copy data size;
    match mem with
    | Some mem =>
        shdr ← populate_shader mem;
        link_set_id result key;;
        link_set_asset result (res_shader shdr);;
        mret result
    | None => mret result
    end.

(** *** Calling a closure *)

(** The Fetch lambda of each kind. *)
Definition fetch (k : kind) : option loc -> string -> M bool :=
  match k with
  | texture => texture_read_memory_func
  | shader => shader_read_memory_func
  | mesh => mesh_read_memory_func
  | material => material_read_memory_func
  | prefab => prefab_read_memory_func
  | scene => scene_read_memory_func
  end.

(** The Materialize lambda of each kind. *)
Definition materialize (k : kind)
  : asset_handle -> option loc -> string -> bool
    -> M (asset_handle * option loc) :=
  match k with
  | texture => texture_create_resource_func
  | shader => shader_create_resource_func
  | mesh => mesh_create_resource_func
  | material => material_create_resource_func
  | prefab => prefab_create_resource_func
  | scene => scene_create_resource_func
  end.

(** Running a closure on the value of the future it was chained to
    ([None] for a unit of work without antecedent): its value and the
    closure with its captures as the call left them. *)
Definition invoke (f : closure) (arg : option value) : M (value * closure) :=
  match f, arg with
  | read_memory_func k p path, None =>
      b ← fetch k p path;
      mret (v_bool b, f)
  | create_resource_func k result p key, Some (v_bool read_result) =>
      '(h, p') ← materialize k result p key read_result;
      mret (v_handle h, create_resource_func k result p' key)
  | memory_create_resource_func key data size, None =>
      h ← shader_memory_create_resource_func key data size;
      mret (v_handle h, f)
  | _, _ => raise bad_argument
  end.

(** *** Task system *)

(** Modelled from the spec: submission to the task system.  A
    submitted unit of work is appended to the queue as a pending task
    and its future (its position) is returned at once. *)
Definition submit (l : lane) (after : option future) (work : closure)
  : M future :=
  fun m =>
    (ok (length (tasks m)),
     set_tasks (fun ts => ts ++ [mk_task l after work None]) m).

(** Modelled from the spec: [push_ready(work)] is the worker-lane
    submission. *)
Definition push_ready (work : closure) : M future :=
  submit worker_lane None work.

(** Modelled from the spec: [push_ready_on_main(work)] is the main-lane
    submission. *)
Definition push_ready_on_main (work : closure) : M future :=
  submit main_lane None work.

(** Modelled from the spec: [push_awaitable_on_main(continuation,
    priorFuture)] schedules the continuation on the main lane once
    [priorFuture] is ready. *)
Definition push_awaitable_on_main (work : closure) (prior : future)
  : M future :=
  submit main_lane (Some prior) work.

(** Modelled from the spec: what a task is run on.  A unit of work
    without antecedent is always runnable; a continuation is runnable
    once its antecedent is ready, and receives its value. *)
Definition ready_argument (ts : list task) (t : task)
  : option (option value) :=
  match task_after t with
  | None => Some None
  | Some prior =>
      match ts !! prior with
      | Some antecedent =>
          match task_value antecedent with
          | Some v => Some (Some v)
          | None => None
          end
      | None => None
      end
  end.

Definition fire (v : value) (work : closure) (t : task) : task :=
  mk_task (task_lane t) (task_after t) work (Some v).

(** Modelled from the spec: executing task [i] on its lane.  Nothing
    happens when the task does not exist, has already fired, is not
    runnable yet, or execution has gone wrong before. *)
Definition run_task (i : future) (m : machine) : machine :=
  match crashed m with
  | Some _ => m
  | None =>
      match tasks m !! i with
      | None => m
      | Some t =>
          match task_value t with
          | Some _ => m
          | None =>
              match ready_argument (tasks m) t with
              | None => m
              | Some arg =>
                  match invoke (task_work t) arg
                          (set_lane (task_lane t) m) with
                  | (ok (v, work), m') =>
                      set_tasks (alter (fire v work) i) m'
                  | (ub f, m') => set_crashed f m'
                  end
              end
          end
      end
  end.

(** Running tasks in the order a scheduler picks them. *)
Fixpoint run_schedule (schedule : list future) (m : machine) : machine :=
  match schedule with
  | [] => m
  | i :: rest => run_schedule rest (run_task i m)
  end.

Definition on_main (ts : list task) (i : future) : bool :=
  match ts !! i with
  | Some t => bool_decide (task_lane t = main_lane)
  | None => false
  end.

(** Modelled from the spec: [drain_main_lane()] executes the main-lane
    items in FIFO order. *)
Definition drain_main_lane (m : machine) : machine :=
  run_schedule
    (List.filter (on_main (tasks m)) (seq 0 (length (tasks m)))) m.

(** The value a future holds, once ready. *)
Definition future_value (m : machine) (f : future) : option value :=
  t ← tasks m !! f; task_value t.

(** *** The loaders *)

(** [load_from_file<texture>] *)
Definition load_from_file_texture (key : string) (mode : load_mode)
  (original : asset_handle) : M future :=
  let absolute_key := resolve E key in
  let compiled_absolute_key :=
    String.append absolute_key (get_compiled_format E texture) in
  read_memory ← make_shared_buffer;
  let read_memory_func :=
    read_memory_func texture (Some read_memory) compiled_absolute_key in
  let create_resource_func :=
    create_resource_func texture original (Some read_memory) key in
  if decide (mode = async) then
    ready_memory_task ← push_ready read_memory_func;
    create_resource_task ←
      push_awaitable_on_main create_resource_func ready_memory_task;
    mret create_resource_task
  else
    ready_memory_task ← push_ready_on_main read_memory_func;
    create_resource_task ←
      push_awaitable_on_main create_resource_func ready_memory_task;
    mret create_resource_task.

(** [load_from_file<shader>] *)
Definition load_from_file_shader (key : string) (mode : load_mode)
  (original : asset_handle) : M future :=
  let absolute_key := resolve E key in
  let compiled_absolute_key :=
    String.append absolute_key (get_compiled_format E shader) in
  read_memory ← make_shared_buffer;
  let read_memory_func :=
    read_memory_func shader (Some read_memory) compiled_absolute_key in
  let create_resource_func :=
    create_resource_func shader original (Some read_memory) key in
  if decide (mode = async) then
    ready_memory_task ← push_ready read_memory_func;
    create_resource_task ←
      push_awaitable_on_main create_resource_func ready_memory_task;
    mret create_resource_task
  else
    ready_memory_task ← push_ready_on_main read_memory_func;
    create_resource_task ←
      push_awaitable_on_main create_resource_func ready_memory_task;
    mret create_resource_task.

(** [load_from_file<mesh>] *)
Definition load_from_file_mesh (key : string) (mode : load_mode)
  (original : asset_handle) : M future :=
  let absolute_key := resolve E key in
  let compiled_absolute_key :=
    String.append absolute_key (get_compiled_format E mesh) in
  wrapper ← make_shared_mesh_wrapper;
  let read_memory_func :=
    read_memory_func mesh (Some wrapper) compiled_absolute_key in
  let create_resource_func :=
    create_resource_func mesh original (Some wrapper) key in
  if decide (mode = async) then
    ready_memory_task ← push_ready read_memory_func;
    create_resource_task ←
      push_awaitable_on_main create_resource_func ready_memory_task;
    mret create_resource_task
  else
    ready_memory_task ← push_ready_on_main read_memory_func;
    create_resource_task ←
      push_awaitable_on_main create_resource_func ready_memory_task;
    mret create_resource_task.

(** [load_from_file<material>] *)
Definition load_from_file_material (key : string) (mode : load_mode)
  (original : asset_handle) : M future :=
  let absolute_key := resolve E key in
  let compiled_absolute_key :=
    String.append absolute_key (get_compiled_format E material) in
  wrapper ← make_shared_material_wrapper;
  let read_memory_func :=
    read_memory_func material (Some wrapper) compiled_absolute_key in
  let create_resource_func :=
    create_resource_func material original (Some wrapper) key in
  if decide (mode = async) then
    ready_memory_task ← push_ready read_memory_func;
    create_resource_task ←
      push_awaitable_on_main create_resource_func ready_memory_task;
    mret create_resource_task
  else
    ready_memory_task ← push_ready_on_main read_memory_func;
    create_resource_task ←
      push_awaitable_on_main create_resource_func ready_memory_task;
    mret create_resource_task.

(** [load_from_file<prefab>] *)
Definition load_from_file_prefab (key : string) (mode : load_mode)
  (original : asset_handle) : M future :=
  let absolute_key := resolve E key in
  let compiled_absolute_key :=
    String.append absolute_key (get_compiled_format E prefab) in
  read_memory ← make_shared_buffer;
  let read_memory_func :=
    read_memory_func prefab (Some read_memory) compiled_absolute_key in
  let create_resource_func :=
    create_resource_func prefab original (Some read_memory) key in
  if decide (mode = async) then
    ready_memory_task ← push_ready read_memory_func;
    create_resource_task ←
      push_awaitable_on_main create_resource_func ready_memory_task;
    mret create_resource_task
  else
    ready_memory_task ← push_ready_on_main read_memory_func;
    create_resource_task ←
      push_awaitable_on_main create_resource_func ready_memory_task;
    mret create_resource_task.

(** [load_from_file<scene>] *)
Definition load_from_file_scene (key : string) (mode : load_mode)
  (original : asset_handle) : M future :=
  let absolute_key := resolve E key in
  let compiled_absolute_key :=
    String.append absolute_key (get_compiled_format E scene) in
  read_memory ← make_shared_buffer;
  let read_memory_func :=
    read_memory_func scene (Some read_memory) compiled_absolute_key in
  let create_resource_func :=
    create_resource_func scene original (Some read_memory) key in
  if decide (mode = async) then
    ready_memory_task ← push_ready read_memory_func;
    create_resource_task ←
      push_awaitable_on_main create_resource_func ready_memory_task;
    mret create_resource_task
  else
    ready_memory_task ← push_ready_on_main read_memory_func;
    create_resource_task ←
      push_awaitable_on_main create_resource_func ready_memory_task;
    mret create_resource_task.

(** The specialisation of [load_from_file] selected by the kind. *)
Definition load_from_file (k : kind)
  : string -> load_mode -> asset_handle -> M future :=
  match k with
  | texture => load_from_file_texture
  | shader => load_from_file_shader
  | mesh => load_from_file_mesh
  | material => load_from_file_material
  | prefab => load_from_file_prefab
  | scene => load_from_file_scene
  end.

(** [load_from_memory<shader>] *)
Definition load_from_memory_shader (key : string)
  (data : option byte_array_t) (size : Z) : M future :=
  let create_resource_func :=
    memory_create_resource_func key data size in
  create_resource_task ← push_ready_on_main create_resource_func;
  mret create_resource_task.

(** A machine at rest: the given links (handles of earlier loads), no
    other shared object, no task. *)
Definition boot (held : gmap loc asset_link) : machine :=
  mk_machine held ∅ ∅ ∅ [] main_lane [] None.

(** The compiled artifact a key resolves to for a kind. *)
Definition compiled_path (k : kind) (key : string) : string :=
  String.append (resolve E key) (get_compiled_format E k).

End Loaders.

(** ** Vocabulary of the properties *)

(** The lane the load mode puts Fetch on. *)
Definition fetch_lane (mode : load_mode) : lane :=
  match mode with sync => main_lane | async => worker_lane end.

(** [c] leaves the task system, the current lane and the crash flag
    alone, and the calls it records, all on the current lane, satisfy
    [P]. *)
Definition emits {A} (P : call -> Prop) (c : M A) : Prop :=
  forall m r m', c m = (r, m') ->
    tasks m' = tasks m /\ lane_now m' = lane_now m
    /\ crashed m' = crashed m
    /\ exists cs, log m' = log m ++ map (pair (lane_now m)) cs
                  /\ Forall P cs.

Definition off_gpu (c : call) : Prop := is_graphics_api c = false.

Definition any_call (c : call) : Prop := True.

(** The Fetch closures. *)
Definition is_fetch (f : closure) : bool :=
  match f with read_memory_func _ _ _ => true | _ => false end.

Definition calls_of (f : closure) : call -> Prop :=
  if is_fetch f then off_gpu else any_call.

(** A recorded call respects the lanes: a graphics call was made on the
    main lane. *)
Definition on_its_lane (e : lane * call) : Prop :=
  is_graphics_api e.2 = true -> e.1 = main_lane.

(** Only Fetch closures sit on the worker lane, and every call recorded
    so far respects the lanes. *)
Definition lanes_ok (m : machine) : Prop :=
  (forall i t, tasks m !! i = Some t ->
     task_lane t = worker_lane -> is_fetch (task_work t) = true)
  /\ Forall on_its_lane (log m).

(** [m'] holds the same shared objects as [m]. *)
Definition same_store (m m' : machine) : Prop :=
  links m' = links m /\ buffers m' = buffers m
  /\ meshes m' = meshes m /\ materials m' = materials m.

(** The object a load allocates for its two closures. *)
Definition allocated (k : kind) (p : loc) (m : machine) : Prop :=
  match k with
  | mesh => meshes m !! p = Some []
  | material => materials m !! p = Some []
  | _ => buffers m !! p = Some []
  end.

(** The kinds whose Fetch fills a byte buffer. *)
Definition uses_buffer (k : kind) : bool :=
  match k with mesh | material => false | _ => true end.

(** The mode in which the Fetch of a kind opens its compiled file. *)
Definition open_mode (k : kind) : openmode :=
  match k with prefab | scene => ios_in_out | _ => ios_in end.

(** The guard of [load_from_memory<shader>]: [!data && size == 0]. *)
Definition nothing_given (data : option (list byte)) (size : Z) : Prop :=
  data = None /\ size = 0%Z.

(** What a Materialize closure finds when Fetch left it something. *)
Definition fetched (k : kind) (p : loc) (m : machine) : Prop :=
  match k with
  | texture | shader =>
      exists bytes, buffers m !! p = Some bytes /\ bytes <> []
  | mesh => is_Some (meshes m !! p)
  | material => is_Some (materials m !! p)
  | prefab | scene => True
  end.

(** What has become of the intermediate buffer when Materialize
    returns: cleared and the closure's pointer reset (texture, shader),
    the closure's wrapper pointer reset (mesh, material), or kept alive
    by the published payload (prefab, scene). *)
Definition released (k : kind) (result : asset_handle) (p : loc)
  (m : machine) (r : outcome (asset_handle * option loc)) (m' : machine)
  : Prop :=
  match k with
  | texture | shader =>
      r = ok (result, None) /\ buffers m' !! p = Some []
  | mesh | material => r = ok (result, None)
  | prefab =>
      r = ok (result, Some p) /\ buffers m' = buffers m
      /\ asset (link_of m' result) = Some (res_prefab (mk_prefab (Some p)))
  | scene =>
      r = ok (result, Some p) /\ buffers m' = buffers m
      /\ asset (link_of m' result) = Some (res_scene (mk_scene (Some p)))
  end.

(** ** Sample collaborators *)

(** One compiled file, [foo.asset], of three bytes. *)
Definition sample_files : gmap string (list byte) :=
  {[ "foo.asset"%string := [x01; x02; x03] ]}.

(** A mesh decoder that rejects the empty archive. *)
Definition sample_decode_mesh (ar : list byte) : option load_data :=
  match ar with
  | [] => None
  | _ => Some (mk_load_data 1 ar 1 [0; 1; 2]%Z [] None)
  end.

Definition sample_decode_material (ar : list byte)
  : option (list (string * string)) :=
  match ar with
  | [] => None
  | _ => Some [("albedo"%string, "white"%string)]
  end.

(** [gfx::copy] that copies [size] bytes when given a source. *)
Definition sample_copy (data : option (list byte)) (size : Z)
  : option Memory :=
  match data with
  | Some bytes => Some (mkMemory (take (Z.to_nat size) bytes) size)
  | None => None
  end.

(** A mesh is prepared once it has been fed at least one vertex. *)
Definition sample_status (calls : list mesh_call) : mesh_status :=
  match calls with
  | [] => not_prepared
  | _ =>
      if existsb (fun c => match c with
                           | set_vertex_source _ count _ => (0 <? count)%Z
                           | _ => false
                           end) calls
      then prepared else preparing
  end.

Definition sample_env : environment :=
  mk_environment (fun key => key) (fun _ => ".asset"%string) sample_files
    (fun _ => true) sample_decode_mesh sample_decode_material sample_copy
    (fun _ => 7%Z) (fun _ => [10; 11; 12]%Z) sample_status.

(** The same collaborators with a binding layer that cannot allocate. *)
Definition exhausted_env : environment :=
  mk_environment (fun key => key) (fun _ => ".asset"%string) sample_files
    (fun _ => true) sample_decode_mesh sample_decode_material
    (fun _ _ => None)
    (fun _ => 7%Z) (fun _ => [10; 11; 12]%Z) sample_status.

(** The same collaborators on a file system that allows no writing. *)
Definition read_only_env : environment :=
  mk_environment (fun key => key) (fun _ => ".asset"%string) sample_files
    (fun _ => false) sample_decode_mesh sample_decode_material sample_copy
    (fun _ => 7%Z) (fun _ => [10; 11; 12]%Z) sample_status.

(** A handle, and the payloads it may hold from an earlier load. *)
Definition sample_handle : asset_handle := mk_handle 5.

Definition earlier (r : resource) : gmap loc asset_link :=
  {[ 5%nat := mk_link "old" (Some r) ]}.

(** A machine whose mesh wrapper 0 was never fed a vertex. *)
Definition unfed_mesh : machine := set_meshes (insert 0%nat []) (boot ∅).

(** A machine whose buffer 0 holds fetched bytes. *)
Definition fetched_bytes : machine :=
  set_buffers (insert 0%nat [x01; x02; x03]) (boot ∅).

(** ** Requests and executions *)

(** A request to the asset reader. *)
Inductive request :=
| from_file (k : kind) (key : string) (mode : load_mode)
    (original : asset_handle)
| from_memory (key : string) (data : option (list byte)) (size : Z).

(** What happens to a machine: a request is made, or the task system
    executes a task. *)
Inductive event :=
| requested (r : request)
| executed (i : future).

Section Driving.

Variable E : environment.

Definition serve (r : request) (m : machine) : machine :=
  match r with
  | from_file k key mode original =>
      (load_from_file E k key mode original m).2
  | from_memory key data size =>
      (load_from_memory_shader key data size m).2
  end.

Definition occur (e : event) (m : machine) : machine :=
  match e with
  | requested r => serve r m
  | executed i => run_task E i m
  end.

(** The machine after a history of requests and task executions, oldest
    first. *)
Fixpoint history (es : list event) (m : machine) : machine :=
  match es with
  | [] => m
  | e :: rest => history rest (occur e m)
  end.

(** What Materialize publishes for a texture and for a shader built from
    the memory block [mem]. *)
Definition built_from (k : kind) (mem : Memory) : resource :=
  match k with
  | shader =>
      res_shader
        (mk_shader (createShader E mem)
           (map mk_uniform (reflected_uniforms E (createShader E mem))))
  | _ => res_texture (mk_texture mem 0 0)
  end.

(** The six calls Fetch makes on the mesh for a decoded load record. *)
Definition prepared_from (data : load_data) : list mesh_call :=
  [ prepare_mesh (vertex_format data);
    set_vertex_source (vertex_data data) (vertex_count data)
      (vertex_format data);
    add_primitives (triangle_data data);
    bind_skin (skin_data data);
    bind_armature (root_node data);
    end_prepare true false false false ].

End Driving.

(** [c] relates the machine it starts from to the one it leaves by [R],
    whatever its outcome. *)
Definition stable (R : machine -> machine -> Prop) {A} (c : M A) : Prop :=
  forall m r m', c m = (r, m') -> R m m'.

(** No link is written. *)
Definition same_links (m m' : machine) : Prop := links m' = links m.

(** No link but that of [h] is written. *)
Definition same_links_but (h : asset_handle) (m m' : machine) : Prop :=
  forall l, l <> link h -> links m' !! l = links m !! l.

(** The document a prefab or a scene payload gives access to. *)
Definition document_of (r : resource) (m : machine) : option (list byte) :=
  match r with
  | res_prefab p => d ← prefab_data p; buffers m !! d
  | res_scene s => d ← scene_data s; buffers m !! d
  | _ => None
  end.

(** A sample history: an asynchronous texture load of [foo], a load from
    memory, and the three tasks executed out of order. *)
Definition sample_history : list event :=
  [ requested (from_file texture "foo" async sample_handle);
    requested (from_memory "mem" (Some [x01]) 1);
    executed 1%nat; executed 2%nat; executed 0%nat; executed 1%nat ].

End runtime.

(** ** Camera (Camera.cpp): the remaining state-changing members *)

Module CameraState.

Import Camera.

(** [a < b] on floats. *)
Definition flt (a b : float) : bool := SFltb a b.

(** Binary32 arithmetic: precision 24, infinities at exponent 128. *)
Definition fsub (a b : float) : float := SFsub 24 128 a b.
Definition fmul (a b : float) : float := SFmul 24 128 a b.
Definition fdiv (a b : float) : float := SFdiv 24 128 a b.
Definition fneg (a : float) : float := SFopp a.

(** [std::min<float>(a, b)]: [b] when [b < a], otherwise [a]. *)
Definition fmin (a b : float) : float := if flt b a then b else a.

(** [std::numeric_limits<float>::max()] *)
Definition FLT_MAX : float := S754_finite false 16777215 104.

(** [float(n)] and [static_cast<float>(n)] of an unsigned integer, and the
    float literals with an integral value. *)
Definition of_uint32 (n : Z) : float := binary_normalize 24 128 n 0 false.

(** The float literals of the file that are not integers. *)
Definition lit_0_1 : float := S754_finite false 13421773 (-27).     (* 0.1f *)
Definition lit_0_5 : float := S754_finite false 8388608 (-24).      (* 0.5f *)
Definition lit_0_0001 : float := S754_finite false 13743895 (-37).  (* 0.0001f *)

(** [enum class ProjectionMode] *)
Inductive ProjectionMode := Perspective | Orthographic.

#[export] Instance ProjectionMode_eq_dec : EqDecision ProjectionMode.
Proof. solve_decision. Defined.

(** [fRect], in the order of its brace initialiser. *)
Record fRect := mkRect {
  rect_left : float; rect_top : float; rect_right : float;
  rect_bottom : float }.

(** [uSize] *)
Record uSize := mkSize { width : Z; height : Z }.

(** [math::vec4] *)
Record vec4 := mkVec4 { vx : float; vy : float; vz : float; vw : float }.

(** The members of [Camera] that hold settings and cache flags.  The clip
    planes and three of the dirty flags are the record [Camera] above.  The
    matrices and the frustum are left out: they are computed by the math
    library from these members, and no setting or flag is ever computed
    from them. *)
Record State := mkState {
  clip : Camera;
  mProjectionMode : ProjectionMode;
  mFOV : float;
  mProjectionWindow : fRect;
  mZoomFactor : float;
  mAspectRatio : float;
  mAspectDirty : bool;
  mFrustumLocked : bool;
  mAspectLocked : bool;
  mAAData : vec4 }.

Definition set_clip (c : Camera) (s : State) : State :=
  mkState c (mProjectionMode s) (mFOV s) (mProjectionWindow s)
    (mZoomFactor s) (mAspectRatio s) (mAspectDirty s) (mFrustumLocked s)
    (mAspectLocked s) (mAAData s).

Definition set_mProjectionMode (v : ProjectionMode) (s : State) : State :=
  mkState (clip s) v (mFOV s) (mProjectionWindow s)
    (mZoomFactor s) (mAspectRatio s) (mAspectDirty s) (mFrustumLocked s)
    (mAspectLocked s) (mAAData s).

Definition set_mFOV (v : float) (s : State) : State :=
  mkState (clip s) (mProjectionMode s) v (mProjectionWindow s)
    (mZoomFactor s) (mAspectRatio s) (mAspectDirty s) (mFrustumLocked s)
    (mAspectLocked s) (mAAData s).

Definition set_mProjectionWindow (v : fRect) (s : State) : State :=
  mkState (clip s) (mProjectionMode s) (mFOV s) v
    (mZoomFactor s) (mAspectRatio s) (mAspectDirty s) (mFrustumLocked s)
    (mAspectLocked s) (mAAData s).

Definition set_mZoomFactor (v : float) (s : State) : State :=
  mkState (clip s) (mProjectionMode s) (mFOV s) (mProjectionWindow s)
    v (mAspectRatio s) (mAspectDirty s) (mFrustumLocked s)
    (mAspectLocked s) (mAAData s).

Definition set_mAspectRatio (v : float) (s : State) : State :=
  mkState (clip s) (mProjectionMode s) (mFOV s) (mProjectionWindow s)
    (mZoomFactor s) v (mAspectDirty s) (mFrustumLocked s)
    (mAspectLocked s) (mAAData s).

Definition set_mAspectDirty (v : bool) (s : State) : State :=
  mkState (clip s) (mProjectionMode s) (mFOV s) (mProjectionWindow s)
    (mZoomFactor s) (mAspectRatio s) v (mFrustumLocked s)
    (mAspectLocked s) (mAAData s).

Definition set_mFrustumLocked (v : bool) (s : State) : State :=
  mkState (clip s) (mProjectionMode s) (mFOV s) (mProjectionWindow s)
    (mZoomFactor s) (mAspectRatio s) (mAspectDirty s) v
    (mAspectLocked s) (mAAData s).

Definition set_mAspectLocked (v : bool) (s : State) : State :=
  mkState (clip s) (mProjectionMode s) (mFOV s) (mProjectionWindow s)
    (mZoomFactor s) (mAspectRatio s) (mAspectDirty s) (mFrustumLocked s)
    v (mAAData s).

Definition set_mAAData (v : vec4) (s : State) : State :=
  mkState (clip s) (mProjectionMode s) (mFOV s) (mProjectionWindow s)
    (mZoomFactor s) (mAspectRatio s) (mAspectDirty s) (mFrustumLocked s)
    (mAspectLocked s) v.

Definition set_mProjectionDirty (v : bool) (s : State) : State :=
  set_clip (mkCamera (mNearClip (clip s)) (mFarClip (clip s))
              (mViewDirty (clip s)) v (mFrustumDirty (clip s))) s.

Definition set_mFrustumDirty (v : bool) (s : State) : State :=
  set_clip (mkCamera (mNearClip (clip s)) (mFarClip (clip s))
              (mViewDirty (clip s)) (mProjectionDirty (clip s)) v) s.

(** [Camera::onModified] on the whole state. *)
Definition modified (s : State) : State := set_clip (onModified (clip s)) s.

(** [Camera::Camera] *)
Definition constructed : State :=
  mkState
    (mkCamera lit_0_1 (of_uint32 1000) true true true)
    Perspective
    (of_uint32 60)
    (mkRect (of_uint32 0) (of_uint32 0) (of_uint32 0) (of_uint32 0))
    (of_uint32 1)
    (of_uint32 1)
    true
    false
    false
    (mkVec4 (of_uint32 0) (of_uint32 0) (of_uint32 0) (of_uint32 0)).

Definition MinZoomFactor : float := lit_0_0001.
Definition MaxZoomFactor : float := of_uint32 20000.

(** [Camera::setZoomFactor] *)
Definition setZoomFactor (fZoom : float) (s : State) : State :=
  (* Clamp the new zoom factor *)
  let fZoom := if flt fZoom MinZoomFactor then MinZoomFactor else fZoom in
  let fZoom := if fgt fZoom MaxZoomFactor then MaxZoomFactor else fZoom in
  modified (set_mZoomFactor fZoom s).

(** [Camera::getZoomFactor] *)
Definition getZoomFactor (s : State) : float := mZoomFactor s.

(** [Camera::setFOV] *)
Definition setFOV (fFOVY : float) (s : State) : State :=
  (* Skip if no-op *)
  if feq (mFOV s) fFOVY then s
  else modified (set_mFOV fFOVY s).

(** [Camera::setProjectionWindow] *)
Definition setProjectionWindow (rect : fRect) (s : State) : State :=
  modified (set_mProjectionWindow rect s).

(** [Camera::setProjectionMode] *)
Definition setProjectionMode (Mode : ProjectionMode) (s : State) : State :=
  (* Bail if this is a no op. *)
  if decide (Mode = mProjectionMode s) then s
  else modified (set_mProjectionMode Mode s).

(** [Camera::setNearClip] and [Camera::setFarClip] on the whole state. *)
Definition setNearClip (depth : nat) (fDistance : float) (s : State)
  : option State :=
  match Camera.setNearClip depth fDistance (clip s) with
  | Some c => Some (set_clip c s)
  | None => None
  end.

Definition setFarClip (depth : nat) (fDistance : float) (s : State)
  : option State :=
  match Camera.setFarClip depth fDistance (clip s) with
  | Some c => Some (set_clip c s)
  | None => None
  end.

(** [Camera::getFOV], [getNearClip], [getFarClip], [getProjectionMode] *)
Definition getFOV (s : State) : float := mFOV s.
Definition getNearClip (s : State) : float := mNearClip (clip s).
Definition getFarClip (s : State) : float := mFarClip (clip s).
Definition getProjectionMode (s : State) : ProjectionMode := mProjectionMode s.

(** [Camera::lockFrustum] and [Camera::isFrustumLocked] *)
Definition lockFrustum (Locked : bool) (s : State) : State :=
  set_mFrustumLocked Locked s.

Definition isFrustumLocked (s : State) : bool := mFrustumLocked s.

(** [Camera::setAspectRatio] *)
Definition setAspectRatio (fAspect : float) (bLocked : bool) (s : State)
  : State :=
  (* Is this a no-op? *)
  if feq fAspect (mAspectRatio s) then set_mAspectLocked bLocked s
  else
    (* Update camera properties *)
    let s := set_mAspectRatio fAspect s in
    let s := set_mAspectLocked bLocked s in
    let s := set_mAspectDirty true s in
    let s := set_mFrustumDirty true s in
    set_mProjectionDirty true s.

(** The last step of [Camera::estimateZoomFactor(ViewportSize, WorldPos,
    fMax)]; [distance] is the quotient it computes from the view matrix,
    the viewport height and the field of view. *)
Definition estimateZoomFactor (distance fMax : float) : float :=
  fmin fMax distance.

(** [Camera::setViewportSize]; [distance] is the quotient inside
    [estimateZoomFactor].  The member [mViewportSize] it also assigns is
    read nowhere. *)
Definition setViewportSize (viewportSize : uSize) (distance : float)
    (s : State) : State :=
  let w := of_uint32 (width viewportSize) in
  let h := of_uint32 (height viewportSize) in
  let s := setAspectRatio (fdiv w h) false s in
  let rect :=
    mkRect (fdiv (fneg w) (of_uint32 2)) (fdiv h (of_uint32 2))
           (fdiv w (of_uint32 2)) (fdiv (fneg h) (of_uint32 2)) in
  let s := setProjectionWindow rect s in
  setZoomFactor (estimateZoomFactor distance FLT_MAX) s.

(** [Camera::getAspectRatio] *)
Definition getAspectRatio (s : State) : float := mAspectRatio s.

(** [Camera::isAspectLocked] *)
Definition isAspectLocked (s : State) : bool :=
  bool_decide (getProjectionMode s = Orthographic) || mAspectLocked s.

(** What [getProj] does to the cached projection matrix. *)
Inductive projection_update :=
| rebuilt_perspective   (* mProj = math::perspective(...) *)
| aspect_patched        (* mProj[0][0] = mProj[1][1] / mAspectRatio *)
| rebuilt_orthographic  (* mProj = math::ortho(...) *)
| kept.

(** [Camera::getProj]: the update made to the matrix and the flags. *)
Definition getProj (s : State) : projection_update * State :=
  (* Only update matrix if something has changed *)
  if decide (getProjectionMode s = Perspective) then
    if mProjectionDirty (clip s) then
      (rebuilt_perspective,
       set_mAspectDirty false (set_mProjectionDirty false s))
    else if mAspectDirty s then
      (aspect_patched, set_mAspectDirty false s)
    else (kept, s)
  else if decide (getProjectionMode s = Orthographic) then
    if mProjectionDirty (clip s) || mAspectDirty s then
      (rebuilt_orthographic,
       set_mAspectDirty false (set_mProjectionDirty false s))
    else (kept, s)
  else (kept, s).

(** [Camera::lookAt], both overloads: the view matrix is replaced. *)
Definition lookAt (s : State) : State := modified s.

(** [Camera::getFrustum] *)
Definition getFrustum (s : State) : State :=
  (* Recalculate frustum if necessary *)
  if mFrustumDirty (clip s) && negb (mFrustumLocked s) then
    let s := (getProj s).2 in       (* mFrustum.update(getView(), getProj()) *)
    set_mFrustumDirty false s
  else s.

(** [Camera::getClippingVolume] *)
Definition getClippingVolume (s : State) : State :=
  if mFrustumDirty (clip s) && negb (mFrustumLocked s) then getFrustum s
  else s.

(** [Camera::recordCurrentMatrices] and [Camera::update] *)
Definition recordCurrentMatrices (s : State) : State := (getProj s).2.

Definition update (s : State) : State := recordCurrentMatrices s.

Section WithMath.

(** [math::halton(index, base)], from the math library. *)
Variable halton : Z -> Z -> float.

(** The sample tables of [setAAData]. *)
Definition SamplesX2 : list float :=
  [fdiv (SFopp (of_uint32 4)) (of_uint32 16); fdiv (of_uint32 4) (of_uint32 16)].
Definition SamplesY2 : list float :=
  [fdiv (of_uint32 4) (of_uint32 16); fdiv (SFopp (of_uint32 4)) (of_uint32 16)].
Definition SamplesX3 : list float :=
  [fdiv (SFopp (of_uint32 2)) (of_uint32 3); fdiv (of_uint32 2) (of_uint32 3);
   fdiv (of_uint32 0) (of_uint32 3)].
Definition SamplesY3 : list float :=
  [fdiv (SFopp (of_uint32 2)) (of_uint32 3); fdiv (of_uint32 0) (of_uint32 3);
   fdiv (of_uint32 2) (of_uint32 3)].
Definition SamplesX4 : list float :=
  [fdiv (SFopp (of_uint32 2)) (of_uint32 16); fdiv (of_uint32 6) (of_uint32 16);
   fdiv (of_uint32 2) (of_uint32 16); fdiv (SFopp (of_uint32 6)) (of_uint32 16)].
Definition SamplesY4 : list float :=
  [fdiv (SFopp (of_uint32 6)) (of_uint32 16);
   fdiv (SFopp (of_uint32 2)) (of_uint32 16);
   fdiv (of_uint32 6) (of_uint32 16); fdiv (of_uint32 2) (of_uint32 16)].

(** [SamplesX[Index]], [SamplesY[Index]] on a pair of local arrays; reading
    past their end is undefined, which is [None]. *)
Definition sample_at (SamplesX SamplesY : list float) (Index : Z)
  : option (float * float) :=
  match SamplesX !! Z.to_nat Index, SamplesY !! Z.to_nat Index with
  | Some x, Some y => Some (x, y)
  | _, _ => None
  end.

(** [Camera::setAAData]; [None] when an array is read out of bounds. *)
Definition setAAData (viewportSize : uSize)
  (currentSubpixelIndex temporalAASamples : Z) (s : State) : option State :=
  if (1 <? temporalAASamples)%Z then
    let SampleX := fsub (halton currentSubpixelIndex 2) lit_0_5 in
    let SampleY := fsub (halton currentSubpixelIndex 3) lit_0_5 in
    let chosen :=
      if (temporalAASamples =? 2)%Z then
        sample_at SamplesX2 SamplesY2 currentSubpixelIndex
      else if (temporalAASamples =? 3)%Z then
        sample_at SamplesX3 SamplesY3 currentSubpixelIndex
      else if (temporalAASamples =? 4)%Z then
        sample_at SamplesX4 SamplesY4 currentSubpixelIndex
      else if (temporalAASamples =? 8)%Z then
        Some (fsub (halton currentSubpixelIndex 2) lit_0_5,
              fsub (halton currentSubpixelIndex 3) lit_0_5)
      else
        Some (fsub (halton currentSubpixelIndex 2) lit_0_5,
              fsub (halton currentSubpixelIndex 3) lit_0_5) in
    match chosen with
    | None => None
    | Some (SampleX, SampleY) =>
        let fWidth := of_uint32 (width viewportSize) in
        let fHeight := of_uint32 (height viewportSize) in
        let data :=
          mkVec4 (of_uint32 currentSubpixelIndex) (of_uint32 temporalAASamples)
            (fmul SampleX (fdiv (of_uint32 2) fWidth))
            (fmul SampleY (fdiv (of_uint32 2) fHeight)) in
        Some (set_mProjectionDirty true (set_mAAData data s))
    end
  else
    let zero := of_uint32 0 in
    Some (set_mProjectionDirty true
            (set_mAAData (mkVec4 zero zero zero zero) s)).

(** [Camera::getAAData] *)
Definition getAAData (s : State) : vec4 := mAAData s.

(** A call made on a camera by its user: the member functions that write a
    setting or a flag.  The other member functions of the file read the
    matrices, and reach the flags only through [getProj] and
    [getFrustum]. *)
Inductive api :=
| SetZoomFactor (fZoom : float)
| SetFOV (fFOVY : float)
| SetProjectionWindow (rect : fRect)
| SetProjectionMode (Mode : ProjectionMode)
| SetNearClip (fDistance : float)
| SetFarClip (fDistance : float)
| LockFrustum (Locked : bool)
| SetAspectRatio (fAspect : float) (bLocked : bool)
| GetProj
| LookAt
| GetFrustum
| GetClippingVolume
| Update
| SetAAData (viewportSize : uSize) (currentSubpixelIndex temporalAASamples : Z)
| SetViewportSize (viewportSize : uSize) (distance : float).

(** One call; the clip setters get the two nested calls they need at
    most.  [None] when the call goes wrong. *)
Definition perform (a : api) (s : State) : option State :=
  match a with
  | SetZoomFactor fZoom => Some (setZoomFactor fZoom s)
  | SetFOV fFOVY => Some (setFOV fFOVY s)
  | SetProjectionWindow rect => Some (setProjectionWindow rect s)
  | SetProjectionMode Mode => Some (setProjectionMode Mode s)
  | SetNearClip fDistance => setNearClip 2 fDistance s
  | SetFarClip fDistance => setFarClip 2 fDistance s
  | LockFrustum Locked => Some (lockFrustum Locked s)
  | SetAspectRatio fAspect bLocked => Some (setAspectRatio fAspect bLocked s)
  | GetProj => Some (getProj s).2
  | LookAt => Some (lookAt s)
  | GetFrustum => Some (getFrustum s)
  | GetClippingVolume => Some (getClippingVolume s)
  | Update => Some (update s)
  | SetAAData viewportSize currentSubpixelIndex temporalAASamples =>
      setAAData viewportSize currentSubpixelIndex temporalAASamples s
  | SetViewportSize viewportSize distance =>
      Some (setViewportSize viewportSize distance s)
  end.

(** A sequence of calls, in order. *)
Fixpoint perform_all (l : list api) (s : State) : option State :=
  match l with
  | [] => Some s
  | a :: rest =>
      match perform a s with
      | Some s' => perform_all rest s'
      | None => None
      end
  end.

(** The float arguments of a call are numbers, and the sub-pixel index of
    a 2, 3 or 4 sample pattern is within the pattern. *)
Definition usable (a : api) : Prop :=
  match a with
  | SetZoomFactor f | SetNearClip f | SetFarClip f => is_nan f = false
  | SetAAData _ index samples =>
      (0 <= index)%Z
      /\ ((samples = 2 \/ samples = 3 \/ samples = 4)%Z -> (index < samples)%Z)
  | _ => True
  end.

End WithMath.

(** The zoom factor is within its bounds. *)
Definition zoom_in_range (s : State) : Prop :=
  fle MinZoomFactor (mZoomFactor s) = true
  /\ fle (mZoomFactor s) MaxZoomFactor = true.

(** Whenever only the aspect ratio is flagged, so is the projection. *)
Definition aspect_implies_projection (s : State) : Prop :=
  mAspectDirty s = true -> mProjectionDirty (clip s) = true.

(** A Halton sequence that is constantly one half. *)
Definition sample_halton (index base : Z) : float := lit_0_5.

(** A camera used for a while. *)
Definition sample_calls : list api :=
  [ SetAspectRatio (of_uint32 2) false;
    GetProj;
    SetNearClip (of_uint32 5000);
    SetZoomFactor (of_uint32 50000);
    SetAAData (mkSize 640 480) 1 2;
    SetViewportSize (mkSize 640 0) S754_nan;
    GetFrustum;
    SetFarClip (of_uint32 3) ].

Definition sample_state : State :=
  match perform_all sample_halton sample_calls constructed with
  | Some s => s
  | None => constructed
  end.

End CameraState.

(** * Properties *)

(** ** The clip planes of [Camera] *)

Section camera_facts.

Import Camera.

(** IEEE comparison is antisymmetric: swapping the operands flips the
    result. *)
Lemma SFcompare_swap (a b : float) :
  SFcompare a b = option_map CompOpp (SFcompare b a).
Proof.
  destruct a as [sa|sa| |sa ma ea], b as [sb|sb| |sb mb eb]; simpl;
    try reflexivity;
    try (destruct sa; reflexivity); try (destruct sb; reflexivity);
    try (destruct sa, sb; reflexivity).
  pose proof (Z.compare_antisym ea eb) as He.
  pose proof (Pos.compare_antisym ma mb) as Hm. unfold Pos.compare in Hm.
  destruct sa, sb; simpl; try reflexivity; rewrite He, Hm;
    destruct (ea ?= eb)%Z; simpl; try reflexivity;
    destruct (Pos.compare_cont Eq ma mb); reflexivity.
Qed.

Lemma SFcompare_refl (a : float) :
  is_nan a = false -> SFcompare a a = Some Eq.
Proof.
  destruct a as [s|s| |s m e]; simpl; intros H;
    try discriminate; try reflexivity.
  - destruct s; reflexivity.
  - rewrite Z.compare_refl.
    change (Pos.compare_cont Eq m m) with (m ?= m)%positive.
    rewrite Pos.compare_refl. destruct s; reflexivity.
Qed.

Lemma SFcompare_total (a b : float) :
  is_nan a = false -> is_nan b = false -> exists c, SFcompare a b = Some c.
Proof. destruct a, b; simpl; intros; try discriminate; eauto. Qed.

Lemma fle_not_nan (a b : float) :
  fle a b = true -> is_nan a = false /\ is_nan b = false.
Proof.
  unfold fle, SFleb. destruct a, b; simpl; intros; try discriminate; auto.
Qed.

Ltac unfold_cmp := unfold fgt, feq, fle, SFltb, SFeqb, SFleb in *.

(** [setNearClip] returns within two nested calls, keeps the planes
    ordered, and when the new near plane lies beyond the far plane it is
    [setFarClip] that finishes the call, leaving both planes at [d]. *)
Lemma setNearClip_ordered (c : Camera) (d : float) (n : nat) :
  is_nan d = false -> clip_ordered c ->
  exists c', setNearClip (S (S n)) d c = Some c' /\ clip_ordered c'
    /\ (feq d (mNearClip c) = false -> fgt d (mFarClip c) = true ->
        setNearClip (S (S n)) d c
          = setFarClip (S n) d (onModified (storeNear d c))
        /\ mNearClip c' = d /\ mFarClip c' = d).
Proof.
  intros Hd Hc. unfold clip_ordered in *.
  destruct (fle_not_nan _ _ Hc) as [Hn Hf].
  destruct c as [near far vd pd fd]; simpl in *.
  destruct (feq d near) eqn:Heq.
  { eexists. repeat split; eauto; discriminate. }
  destruct (fgt d far) eqn:Hgt.
  - unfold_cmp.
    rewrite (SFcompare_swap d far).
    destruct (SFcompare far d) as [[]|]; try discriminate. simpl.
    rewrite (SFcompare_refl d Hd).
    eexists; split; [reflexivity|]. simpl.
    rewrite (SFcompare_refl d Hd). auto.
  - eexists; split; [reflexivity|]. simpl. split; [|discriminate].
    unfold_cmp.
    rewrite (SFcompare_swap d far).
    destruct (SFcompare_total far d Hf Hd) as [x Hx]. rewrite Hx in *.
    destruct x; simpl; auto; discriminate.
Qed.

(** The same for [setFarClip], with the roles of the planes exchanged. *)
Lemma setFarClip_ordered (c : Camera) (d : float) (n : nat) :
  is_nan d = false -> clip_ordered c ->
  exists c', setFarClip (S (S n)) d c = Some c' /\ clip_ordered c'
    /\ (feq d (mFarClip c) = false -> fgt (mNearClip c) d = true ->
        setFarClip (S (S n)) d c
          = setNearClip (S n) d (onModified (storeFar d c))
        /\ mNearClip c' = d /\ mFarClip c' = d).
Proof.
  intros Hd Hc. unfold clip_ordered in *.
  destruct (fle_not_nan _ _ Hc) as [Hn Hf].
  destruct c as [near far vd pd fd]; simpl in *.
  destruct (feq d far) eqn:Heq.
  { eexists. repeat split; eauto; discriminate. }
  destruct (fgt near d) eqn:Hgt.
  - unfold_cmp.
    rewrite (SFcompare_swap d near).
    destruct (SFcompare near d) as [[]|] eqn:Hnd;
      rewrite (SFcompare_swap d near), Hnd in Hgt; try discriminate.
    simpl. rewrite (SFcompare_refl d Hd).
    eexists; split; [reflexivity|]. simpl.
    rewrite (SFcompare_refl d Hd). auto.
  - eexists; split; [reflexivity|]. simpl. split; [|discriminate].
    unfold_cmp.
    destruct (SFcompare_total near d Hn Hd) as [x Hx].
    rewrite (SFcompare_swap d near), Hx in Hgt. rewrite Hx.
    destruct x; simpl in *; auto; discriminate.
Qed.

(** C10.  From a camera whose planes are ordered, one call of
    [setNearClip d] or of [setFarClip d] with [d] not a NaN returns and
    leaves [mNearClip <= mFarClip]; when the stored value would break the
    order, the setter hands over to the other setter, which moves the
    opposite plane to [d]. *)
Theorem clip_setters_keep_order (c : Camera) (d : float) (n : nat) :
  is_nan d = false -> clip_ordered c ->
  (exists c', setNearClip (S (S n)) d c = Some c' /\ clip_ordered c'
     /\ (feq d (mNearClip c) = false -> fgt d (mFarClip c) = true ->
         setNearClip (S (S n)) d c
           = setFarClip (S n) d (onModified (storeNear d c))
         /\ mNearClip c' = d /\ mFarClip c' = d))
  /\
  (exists c', setFarClip (S (S n)) d c = Some c' /\ clip_ordered c'
     /\ (feq d (mFarClip c) = false -> fgt (mNearClip c) d = true ->
         setFarClip (S (S n)) d c
           = setNearClip (S n) d (onModified (storeFar d c))
         /\ mNearClip c' = d /\ mFarClip c' = d)).
Proof.
  intros Hd Hc. split.
  - apply setNearClip_ordered; assumption.
  - apply setFarClip_ordered; assumption.
Qed.

Lemma clip_setters_keep_order_witness :
  (is_nan sample_distance = false /\ clip_ordered sample_camera)
  /\ (exists c', setNearClip 2 sample_distance sample_camera = Some c'
        /\ clip_ordered c')
  /\ (exists c', setFarClip 2 sample_distance sample_camera = Some c'
        /\ clip_ordered c').
Proof.
  split; [split; reflexivity|].
  destruct (clip_setters_keep_order sample_camera sample_distance 0
              eq_refl eq_refl)
    as [[c1 [H1 [O1 _]]] [c2 [H2 [O2 _]]]].
  split; [exists c1 | exists c2]; split; assumption.
Defined.

End camera_facts.

(** ** The closures and the scheduler *)

Section pipeline_facts.

Import runtime.

Variable E : environment.

Lemma emits_silent {A} P (c : M A) :
  (forall m r m', c m = (r, m') ->
     tasks m' = tasks m /\ lane_now m' = lane_now m
     /\ crashed m' = crashed m /\ log m' = log m) ->
  emits P c.
Proof.
  intros H m r m' Hc. destruct (H _ _ _ Hc) as (?&?&?&Hl).
  repeat split; auto. exists []. rewrite Hl, app_nil_r. auto.
Qed.

Lemma emits_mret {A} P (a : A) : emits P (mret a).
Proof. apply emits_silent. intros m r m' [= <- <-]. auto. Qed.

Lemma emits_raise {A} P f : emits P (@raise A f).
Proof. apply emits_silent. intros m r m' [= <- <-]. auto. Qed.

Lemma emits_bind {A B} P (c : M A) (k : A -> M B) :
  emits P c -> (forall a, emits P (k a)) -> emits P (c ≫= k).
Proof.
  intros Hc Hk m r m'. unfold mbind, M_bind, bind.
  destruct (c m) as [[a|f] m1] eqn:Hcm; intros Hr.
  - destruct (Hc _ _ _ Hcm) as (T1&L1&C1&cs1&G1&F1).
    destruct (Hk a _ _ _ Hr) as (T2&L2&C2&cs2&G2&F2).
    repeat split; try congruence.
    exists (cs1 ++ cs2). split; [|apply Forall_app; auto].
    rewrite G2, G1, L1, map_app, app_assoc. reflexivity.
  - injection Hr as <- <-. destruct (Hc _ _ _ Hcm) as (T1&L1&C1&cs1&G1&F1).
    repeat split; auto. eauto.
Qed.

Lemma emits_emit P (c : call) : P c -> emits P (emit c).
Proof.
  intros Hp m r m' [= <- <-]. simpl. repeat split; auto.
  exists [c]. split; auto.
Qed.

Lemma emits_weaken {A} (P Q : call -> Prop) (c : M A) :
  (forall x, P x -> Q x) -> emits P c -> emits Q c.
Proof.
  intros HPQ Hc m r m' Hr. destruct (Hc _ _ _ Hr) as (?&?&?&cs&?&HF).
  repeat split; auto. exists cs. split; auto.
  eapply Forall_impl; eauto.
Qed.

Ltac silent :=
  apply emits_silent; intros ? ? ? Hc; cbv beta zeta delta
    [make_shared_buffer buffer_at buffer_assign make_shared_mesh_wrapper
     make_shared_material_wrapper wrapper_mesh wrapper_mesh_assign
     wrapper_material wrapper_material_assign link_set_id link_set_asset
     new_handle] in Hc;
  repeat case_match; simplify_eq; auto.

Lemma emits_make_shared_buffer P : emits P make_shared_buffer.
Proof. silent. Qed.
Lemma emits_buffer_at P p : emits P (buffer_at p).
Proof. silent. Qed.
Lemma emits_buffer_assign P p b : emits P (buffer_assign p b).
Proof. silent. Qed.
Lemma emits_make_shared_mesh_wrapper P : emits P make_shared_mesh_wrapper.
Proof. silent. Qed.
Lemma emits_make_shared_material_wrapper P :
  emits P make_shared_material_wrapper.
Proof. silent. Qed.
Lemma emits_wrapper_mesh P w : emits P (wrapper_mesh w).
Proof. silent. Qed.
Lemma emits_wrapper_mesh_assign P w o : emits P (wrapper_mesh_assign w o).
Proof. silent. Qed.
Lemma emits_wrapper_material P w : emits P (wrapper_material w).
Proof. silent. Qed.
Lemma emits_wrapper_material_assign P w o :
  emits P (wrapper_material_assign w o).
Proof. silent. Qed.
Lemma emits_link_set_id P h k : emits P (link_set_id h k).
Proof. silent. Qed.
Lemma emits_link_set_asset P h r : emits P (link_set_asset h r).
Proof. silent. Qed.
Lemma emits_new_handle P : emits P new_handle.
Proof. silent. Qed.
Lemma emits_element_address {A} P (v : list A) i :
  emits P (element_address v i).
Proof.
  unfold element_address. destruct (v !! i);
    [apply (emits_mret P) | apply emits_raise].
Qed.

Create HintDb frame.
#[local] Hint Resolve emits_make_shared_buffer emits_buffer_at
  emits_buffer_assign emits_make_shared_mesh_wrapper
  emits_make_shared_material_wrapper emits_wrapper_mesh
  emits_wrapper_mesh_assign emits_wrapper_material
  emits_wrapper_material_assign emits_link_set_id emits_link_set_asset
  emits_new_handle emits_element_address : frame.

Ltac frame_step :=
  first
    [ apply emits_mret
    | apply emits_raise
    | solve [auto with frame]
    | apply emits_element_address
    | apply emits_bind; [| intros ?]
    | apply emits_emit; try first [reflexivity | exact I | assumption]
    | match goal with
      | |- emits _ (match ?x with _ => _ end) => destruct x
      end ].

Ltac frame := repeat frame_step.

Lemma emits_open_stream mode path :
  emits off_gpu (open_stream E mode path).
Proof. unfold open_stream. frame. Qed.

Lemma emits_try_load {A} k dec ar (t : A) :
  emits off_gpu (try_load k dec ar t).
Proof. unfold try_load. frame. Qed.

Lemma emits_mesh_invoke_off w c :
  off_gpu (mesh_member_call c) -> emits off_gpu (mesh_invoke w c).
Proof. intros H. unfold mesh_invoke. frame. Qed.


#[local] Hint Resolve emits_open_stream emits_try_load : frame.

Lemma emits_fetch k p path : emits off_gpu (fetch E k p path).
Proof.
  destruct k; cbn [fetch];
    unfold texture_read_memory_func, shader_read_memory_func,
      mesh_read_memory_func, material_read_memory_func,
      prefab_read_memory_func, scene_read_memory_func;
    frame; apply emits_mesh_invoke_off; reflexivity.
Qed.

Lemma emits_mesh_invoke w c : emits any_call (mesh_invoke w c).
Proof. unfold mesh_invoke. frame. Qed.

#[local] Hint Resolve emits_mesh_invoke : frame.

Lemma emits_push_back_uniforms us acc :
  emits any_call (push_back_uniforms us acc).
Proof.
  revert acc. induction us as [|u us IH]; intros acc; cbn [push_back_uniforms].
  - frame.
  - unfold uniform_populate. frame.
Qed.

#[local] Hint Resolve emits_push_back_uniforms : frame.

Lemma emits_populate_shader mem : emits any_call (populate_shader E mem).
Proof.
  unfold populate_shader, shader_populate, gfx_getShaderUniforms.
  frame.
Qed.

#[local] Hint Resolve emits_populate_shader : frame.

Lemma emits_materialize k result p key b :
  emits any_call (materialize E k result p key b).
Proof.
  destruct k; cbn [materialize];
    unfold texture_create_resource_func, shader_create_resource_func,
      mesh_create_resource_func, material_create_resource_func,
      prefab_create_resource_func, scene_create_resource_func,
      gfx_copy, make_shared_texture;
    frame.
Qed.

Lemma emits_memory key data size :
  emits any_call (shader_memory_create_resource_func E key data size).
Proof.
  unfold shader_memory_create_resource_func, gfx_copy. frame.
Qed.

Lemma emits_invoke f arg : emits (calls_of f) (invoke E f arg).
Proof.
  destruct f as [k p path|k result p key|key data size];
    destruct arg as [[b|h]|]; cbn [invoke calls_of is_fetch];
    try apply emits_raise.
  - apply emits_bind; [apply emits_fetch|intros; apply emits_mret].
  - apply emits_bind; [apply emits_materialize|intros [h p']; apply emits_mret].
  - apply emits_bind; [apply emits_memory|intros; apply emits_mret].
Qed.

Lemma invoke_keeps_stage f arg m v f' m' :
  invoke E f arg m = (ok (v, f'), m') -> is_fetch f' = is_fetch f.
Proof.
  destruct f as [k p path|k result p key|key data size];
    destruct arg as [[b|h]|]; cbn [invoke];
    unfold mbind, M_bind, bind, mret, M_ret, ret, raise;
    intros H; repeat case_match; simplify_eq; reflexivity.
Qed.

(** What running one task can do. *)
Lemma run_task_cases i m :
  run_task E i m = m
  \/ exists t arg r m',
      crashed m = None /\ tasks m !! i = Some t /\ task_value t = None
      /\ ready_argument (tasks m) t = Some arg
      /\ invoke E (task_work t) arg (set_lane (task_lane t) m) = (r, m')
      /\ run_task E i m
         = match r with
           | ok (v, work) => set_tasks (alter (fire v work) i) m'
           | ub f => set_crashed f m'
           end.
Proof.
  unfold run_task.
  destruct (crashed m) eqn:Hc; [left; reflexivity|].
  destruct (tasks m !! i) as [t|] eqn:Ht; [|left; reflexivity].
  destruct (task_value t) eqn:Hv; [left; reflexivity|].
  destruct (ready_argument (tasks m) t) as [arg|] eqn:Ha; [|left; reflexivity].
  destruct (invoke E (task_work t) arg (set_lane (task_lane t) m))
    as [r m'] eqn:Hi.
  right. exists t, arg, r, m'. repeat split; auto.
Qed.

Lemma run_task_lanes_ok i m : lanes_ok m -> lanes_ok (run_task E i m).
Proof.
  intros [Hw Hl].
  destruct (run_task_cases i m) as [->|(t&arg&r&m'&Hc&Ht&Hv&Ha&Hi&->)];
    [split; assumption|].
  destruct (emits_invoke _ _ _ _ _ Hi) as (T&L&C&cs&G&F).
  cbn in T, L, C, G.
  assert (Hlog : Forall on_its_lane (log m')).
  { rewrite G. apply Forall_app. split; [assumption|].
    apply Forall_forall. intros [l c] Hin.
    apply list_elem_of_In, in_map_iff in Hin. destruct Hin as (c'&[= <- <-]&Hin).
    intros Hg. cbn in *. destruct (task_lane t) eqn:Hlane; [|reflexivity].
    unfold calls_of in F. rewrite (Hw _ _ Ht Hlane) in F.
    rewrite Forall_forall in F. apply list_elem_of_In, F in Hin.
    unfold off_gpu in Hin. congruence. }
  destruct r as [[v w]|f]; split; cbn; try assumption.
  - intros j t' Hj Hlane. rewrite T in Hj.
    destruct (decide (i = j)) as [->|Hne].
    + rewrite list_lookup_alter_eq, Ht in Hj. cbn in Hj. simplify_eq. cbn in *.
      rewrite (invoke_keeps_stage _ _ _ _ _ _ Hi). eauto.
    + rewrite list_lookup_alter_ne in Hj by assumption. eauto.
  - intros j t' Hj. rewrite T in Hj. eauto.
Qed.

Lemma run_schedule_lanes_ok schedule m :
  lanes_ok m -> lanes_ok (run_schedule E schedule m).
Proof.
  revert m. induction schedule as [|i rest IH]; intros m H; cbn; auto.
  apply IH, run_task_lanes_ok, H.
Qed.

Lemma run_task_crashed i m : crashed m <> None -> run_task E i m = m.
Proof. unfold run_task. destruct (crashed m); congruence. Qed.

Lemma run_task_absent i m : tasks m !! i = None -> run_task E i m = m.
Proof.
  intros H. unfold run_task. rewrite H. destruct (crashed m); reflexivity.
Qed.

Lemma run_task_fired i m t :
  tasks m !! i = Some t -> task_value t <> None -> run_task E i m = m.
Proof.
  intros H Hv. unfold run_task. rewrite H.
  destruct (crashed m), (task_value t); congruence.
Qed.

Lemma run_task_blocked i m t :
  tasks m !! i = Some t -> ready_argument (tasks m) t = None ->
  run_task E i m = m.
Proof.
  intros H Hr. unfold run_task. rewrite H, Hr.
  destruct (crashed m), (task_value t); reflexivity.
Qed.

(** The task system after one step: untouched, or task [i] has fired. *)
Lemma run_task_tasks i m :
  (run_task E i m = m)
  \/ (crashed (run_task E i m) <> None)
  \/ (exists t arg v w,
        tasks m !! i = Some t /\ ready_argument (tasks m) t = Some arg
        /\ crashed (run_task E i m) = None
        /\ tasks (run_task E i m) = alter (fire v w) i (tasks m)).
Proof.
  destruct (run_task_cases i m) as [->|(t&arg&r&m'&Hc&Ht&Hv&Ha&Hi&Hr)];
    [left; reflexivity|right].
  destruct (emits_invoke _ _ _ _ _ Hi) as (T&L&C&_).
  cbn in T, C. rewrite Hr. destruct r as [[v w]|f].
  - right. exists t, arg, v, w. cbn. rewrite T. repeat split; congruence.
  - left. cbn. discriminate.
Qed.

Section two_stage.
Variables (m : machine) (t0 t1 : task).
Hypothesis m_tasks : tasks m = [t0; t1].
Hypothesis t0_pending : task_value t0 = None.
Hypothesis t1_after : task_after t1 = Some 0%nat.

Local Abbreviation S1 := (run_task E 0 m).
Local Abbreviation S2 := (run_task E 1 (run_task E 0 m)).

Lemma stage0_only i : i <> 0%nat -> run_task E i m = m.
Proof.
  intros Hi. destruct i as [|[|i]]; [congruence| |].
  - apply run_task_blocked with t1; rewrite m_tasks; [reflexivity|].
    unfold ready_argument. rewrite t1_after. cbn. rewrite t0_pending.
    reflexivity.
  - apply run_task_absent. rewrite m_tasks. reflexivity.
Qed.

Lemma stage1_shape :
  S1 = m \/ crashed S1 <> None
  \/ (exists v w, crashed S1 = None /\ tasks S1 = [fire v w t0; t1]).
Proof.
  destruct (run_task_tasks 0 m) as [H|[H|(t&arg&v&w&Ht&Ha&Hc&HT)]]; auto.
  right; right. exists v, w. split; [assumption|].
  rewrite HT, m_tasks. reflexivity.
Qed.

Lemma stage1_only i : i <> 1%nat -> run_task E i S1 = S1.
Proof.
  intros Hi.
  destruct stage1_shape as [H|[H|(v&w&Hc&HT)]].
  - destruct i as [|i]; [rewrite H; exact H|].
    rewrite H. apply stage0_only. discriminate.
  - apply run_task_crashed, H.
  - destruct i as [|[|i]]; [|congruence|].
    + apply run_task_fired with (fire v w t0);
        [rewrite HT; reflexivity|discriminate].
    + apply run_task_absent. rewrite HT. reflexivity.
Qed.

Lemma stage2_settled i : run_task E i S2 = S2.
Proof.
  destruct (run_task_tasks 1 S1) as [H|[H|(t&arg&v&w&Ht&Ha&Hc&HT)]].
  - destruct (decide (i = 1%nat)) as [->|Hi]; rewrite H; [exact H|].
    apply stage1_only, Hi.
  - apply run_task_crashed, H.
  - destruct stage1_shape as [H1|[H1|(v0&w0&Hc1&HT1)]].
    + exfalso. rewrite H1, m_tasks in Ht, Ha. cbn in Ht. simplify_eq.
      unfold ready_argument in Ha. rewrite t1_after in Ha. cbn in Ha.
      rewrite t0_pending in Ha. discriminate.
    + exfalso. apply H1.
      destruct (run_task_cases 1 S1) as [Hs|(?&?&?&?&?&_)];
        [|assumption].
      rewrite <- Hs. exact Hc.
    + rewrite HT1 in HT. cbn in HT.
      destruct i as [|[|i]].
      * apply run_task_fired with (fire v0 w0 t0);
        [rewrite HT; reflexivity|discriminate].
      * apply run_task_fired with (fire v w t1);
        [rewrite HT; reflexivity|discriminate].
      * apply run_task_absent. rewrite HT. reflexivity.
Qed.

(** Whatever the scheduler does, a two-stage load is in one of three
    states: submitted, fetched, materialized. *)
Lemma two_stage_reachable schedule :
  let r := run_schedule E schedule m in r = m \/ r = S1 \/ r = S2.
Proof.
  cbn zeta.
  assert (H2 : forall s, run_schedule E s S2 = S2).
  { induction s as [|i s IH]; cbn; [reflexivity|].
    rewrite stage2_settled. exact IH. }
  assert (H1 : forall s, run_schedule E s S1 = S1
                         \/ run_schedule E s S1 = S2).
  { induction s as [|i s IH]; cbn; [left; reflexivity|].
    destruct (decide (i = 1%nat)) as [->|Hi].
    - right. apply H2.
    - rewrite (stage1_only i Hi). exact IH. }
  induction schedule as [|i s IH]; cbn; [left; reflexivity|].
  destruct (decide (i = 0%nat)) as [->|Hi].
  - right. apply H1.
  - rewrite (stage0_only i Hi). exact IH.
Qed.
End two_stage.

Ltac run := unfold mbind, M_bind, bind, mret, M_ret, ret, raise; cbn.

Lemma write_handles_all (src dst : list UniformHandle) :
  length dst = length src -> write_handles src dst = src.
Proof.
  revert dst. induction src as [|x src IH]; intros [|y dst] H;
    cbn in *; try congruence.
  f_equal. apply IH. lia.
Qed.

Lemma push_back_uniforms_run us acc m :
  exists m', push_back_uniforms us acc m = (ok (acc ++ map mk_uniform us), m')
             /\ same_store m m' /\ tasks m' = tasks m.
Proof.
  revert acc m. induction us as [|u us IH]; intros acc m.
  - exists m. cbn. rewrite app_nil_r. repeat split.
  - cbn [push_back_uniforms]. unfold uniform_populate. run.
    destruct (IH (acc ++ [mk_uniform u]) 
      (mk_machine (links m) (buffers m) (meshes m) (materials m) (tasks m)
         (lane_now m) (log m ++ [(lane_now m, gfx_getUniformInfo_call)])
         (crashed m))) as (m'&Hr&Hs&Ht).
    exists m'. rewrite Hr, <- app_assoc. repeat split; apply Hs || exact Ht.
Qed.

Lemma populate_shader_run mem m :
  exists m',
    populate_shader E mem m
      = (ok (mk_shader (createShader E mem)
               (map mk_uniform (reflected_uniforms E (createShader E mem)))),
         m')
    /\ same_store m m' /\ tasks m' = tasks m.
Proof.
  unfold populate_shader, shader_populate, gfx_getShaderUniforms. run.
  set (h := createShader E mem). set (found := reflected_uniforms E h).
  destruct found as [|u rest] eqn:Hf.
  - cbn. eexists. split; [reflexivity|]. repeat split.
  - cbn [length Nat.ltb Nat.leb]. cbn.
    rewrite firstn_all. 
    rewrite (write_handles_all rest) by (rewrite length_replicate; reflexivity).
    match goal with |- context [(uniform_populate u ≫= _) ?mm] =>
      destruct (push_back_uniforms_run (u :: rest) [] mm) as (m'&Hr&Hs&Ht)
    end.
    cbn [push_back_uniforms app] in Hr. rewrite Hr. cbn.
    exists m'. repeat split; apply Hs || exact Ht.
Qed.

Lemma link_written (held : gmap nat asset_link) (l : nat) key r a :
  default empty_link
    (<[l := mk_link
         (id (default empty_link (<[l := mk_link key a]> held !! l)))
         (Some r)]>
       (<[l := mk_link key a]> held) !! l)
  = mk_link key (Some r).
Proof. rewrite !lookup_insert_eq. reflexivity. Qed.

Lemma vector_nonempty {A} (v : list A) : v <> [] -> vector_empty v = false.
Proof. destruct v; [congruence|reflexivity]. Qed.


Lemma texture_create_resource_func_run result p key b m bytes mem :
  buffers m !! p = Some bytes -> bytes <> [] ->
  copy E (Some bytes) (to_uint32 (length bytes)) = Some mem ->
  exists m',
    texture_create_resource_func E result (Some p) key b m
      = (ok (result, None), m')
    /\ link_of m' result
        = mk_link key (Some (res_texture (mk_texture mem 0 0)))
    /\ buffers m' !! p = Some [] /\ tasks m' = tasks m.
Proof.
  intros Hb Hne Hc.
  unfold texture_create_resource_func, buffer_at, gfx_copy,
    make_shared_texture. run. rewrite Hb.
  rewrite (vector_nonempty _ Hne), Hc. cbn.
  eexists. split; [reflexivity|]. unfold link_of. cbn.
  rewrite link_written, lookup_insert_eq. repeat split.
Qed.

Lemma shader_create_resource_func_run result p key b m bytes mem :
  buffers m !! p = Some bytes -> bytes <> [] ->
  copy E (Some bytes) (to_uint32 (length bytes)) = Some mem ->
  exists m',
    shader_create_resource_func E result (Some p) key b m
      = (ok (result, None), m')
    /\ link_of m' result
        = mk_link key
            (Some (res_shader
               (mk_shader (createShader E mem)
                  (map mk_uniform
                     (reflected_uniforms E (createShader E mem))))))
    /\ buffers m' !! p = Some [] /\ tasks m' = tasks m.
Proof.
  intros Hb Hne Hc.
  unfold shader_create_resource_func, buffer_at, gfx_copy. run. rewrite Hb.
  rewrite (vector_nonempty _ Hne), Hc. cbn.
  match goal with |- context [populate_shader E mem ?mm] =>
    destruct (populate_shader_run mem mm) as (m1&Hr&(Hl&Hbuf&_&_)&Ht)
  end.
  rewrite Hr. cbn in *. eexists. split; [reflexivity|]. unfold link_of. cbn.
  rewrite link_written, Hbuf, lookup_insert_eq. repeat split. exact Ht.
Qed.

Lemma mesh_create_resource_func_run result w key b m obj :
  meshes m !! w = Some obj ->
  let built := obj ++ [build_vb; build_ib] in
  exists m',
    mesh_create_resource_func E result (Some w) key b m
      = (ok (result, None), m')
    /\ (get_status E built = prepared ->
        link_of m' result = mk_link key (Some (res_mesh built)))
    /\ (get_status E built <> prepared -> links m' = links m)
    /\ buffers m' = buffers m /\ tasks m' = tasks m.
Proof.
  intros Hw built.
  unfold mesh_create_resource_func, mesh_invoke, wrapper_mesh,
    wrapper_mesh_assign. run. rewrite Hw. cbn.
  rewrite lookup_insert_eq. cbn. rewrite lookup_insert_eq.
  rewrite <- app_assoc. cbn [app]. fold built.
  destruct (decide (get_status E built = prepared)) as [Hp|Hp]; cbn;
    (eexists; split; [reflexivity|]); unfold link_of; cbn;
    repeat split; try congruence.
  intros _. apply link_written.
Qed.

Lemma material_create_resource_func_run result w key b m obj :
  materials m !! w = Some obj ->
  exists m',
    material_create_resource_func result (Some w) key b m
      = (ok (result, None), m')
    /\ link_of m' result = mk_link key (Some (res_material obj))
    /\ tasks m' = tasks m.
Proof.
  intros Hw. unfold material_create_resource_func, wrapper_material. run.
  rewrite Hw. cbn. eexists. split; [reflexivity|]. unfold link_of. cbn.
  rewrite link_written. repeat split.
Qed.

Lemma prefab_create_resource_func_run result p key b m :
  exists m',
    prefab_create_resource_func result p key b m = (ok (result, p), m')
    /\ link_of m' result = mk_link key (Some (res_prefab (mk_prefab p)))
    /\ buffers m' = buffers m /\ tasks m' = tasks m.
Proof.
  unfold prefab_create_resource_func. run.
  eexists. split; [reflexivity|]. unfold link_of. cbn.
  rewrite link_written. repeat split.
Qed.

Lemma scene_create_resource_func_run result p key b m :
  exists m',
    scene_create_resource_func result p key b m = (ok (result, p), m')
    /\ link_of m' result = mk_link key (Some (res_scene (mk_scene p)))
    /\ buffers m' = buffers m /\ tasks m' = tasks m.
Proof.
  unfold scene_create_resource_func. run.
  eexists. split; [reflexivity|]. unfold link_of. cbn.
  rewrite link_written. repeat split.
Qed.

Lemma load_from_file_tasks k key mode original m :
  exists p m',
    load_from_file E k key mode original m = (ok (S (length (tasks m))), m')
    /\ tasks m' =
         tasks m ++
         [ mk_task (fetch_lane mode) None
             (read_memory_func k (Some p) (compiled_path E k key)) None;
           mk_task main_lane (Some (length (tasks m)))
             (create_resource_func k original (Some p) key) None ]
    /\ links m' = links m /\ log m' = log m /\ crashed m' = crashed m
    /\ allocated k p m'.
Proof.
  destruct k, mode;
    cbv [load_from_file load_from_file_texture load_from_file_shader
         load_from_file_mesh load_from_file_material load_from_file_prefab
         load_from_file_scene mbind M_bind bind mret M_ret ret
         make_shared_buffer make_shared_mesh_wrapper
         make_shared_material_wrapper push_ready push_ready_on_main
         push_awaitable_on_main submit];
    cbn [decide decide_rel load_mode_eq_dec load_mode_rec load_mode_rect
         tasks set_tasks set_buffers set_meshes set_materials links log
         crashed fetch_lane];
    eexists _, _;
    (split; [apply (f_equal2 pair); [|reflexivity];
             rewrite length_app, Nat.add_comm; reflexivity|]);
    cbn; rewrite <- app_assoc, ?length_app, ?Nat.add_comm;
    repeat split; try reflexivity; apply lookup_insert_eq.
Qed.

Lemma run_task_fire i m t arg v w m' :
  crashed m = None -> tasks m !! i = Some t -> task_value t = None ->
  ready_argument (tasks m) t = Some arg ->
  invoke E (task_work t) arg (set_lane (task_lane t) m) = (ok (v, w), m') ->
  run_task E i m = set_tasks (alter (fire v w) i) m'.
Proof.
  intros Hc Ht Hv Ha Hi. unfold run_task. rewrite Hc, Ht, Hv, Ha, Hi.
  reflexivity.
Qed.

Lemma run_task_crash i m t arg f m' :
  crashed m = None -> tasks m !! i = Some t -> task_value t = None ->
  ready_argument (tasks m) t = Some arg ->
  invoke E (task_work t) arg (set_lane (task_lane t) m) = (ub f, m') ->
  run_task E i m = set_crashed f m'.
Proof.
  intros Hc Ht Hv Ha Hi. unfold run_task. rewrite Hc, Ht, Hv, Ha, Hi.
  reflexivity.
Qed.

(** Both stages of a load, fetched then materialized. *)
Lemma two_stage_run m t0 t1 v0 w0 m0 v1 w1 m1 :
  crashed m = None -> tasks m = [t0; t1] ->
  task_after t0 = None -> task_value t0 = None ->
  task_after t1 = Some 0%nat -> task_value t1 = None ->
  invoke E (task_work t0) None (set_lane (task_lane t0) m)
    = (ok (v0, w0), m0) ->
  invoke E (task_work t1) (Some v0)
    (set_lane (task_lane t1) (set_tasks (alter (fire v0 w0) 0%nat) m0))
    = (ok (v1, w1), m1) ->
  run_task E 0 m = set_tasks (alter (fire v0 w0) 0%nat) m0
  /\ run_task E 1 (run_task E 0 m) = set_tasks (alter (fire v1 w1) 1%nat) m1.
Proof.
  intros Hc HT A0 V0 A1 V1 I0 I1.
  destruct (emits_invoke _ _ _ _ _ I0) as (T0&_&C0&_). cbn in T0, C0.
  assert (R0 : run_task E 0 m = set_tasks (alter (fire v0 w0) 0%nat) m0).
  { apply run_task_fire with t0 None; auto.
    - rewrite HT. reflexivity.
    - unfold ready_argument. rewrite A0. reflexivity. }
  split; [exact R0|]. rewrite R0.
  apply run_task_fire with t1 (Some v0); auto.
  - cbn. congruence.
  - cbn. rewrite T0, HT. reflexivity.
  - cbn. rewrite T0, HT. cbn. unfold ready_argument. rewrite A1. reflexivity.
Qed.

(** Fetch of the four byte-buffer kinds: the file's bytes, or none, go
    into the shared buffer, and the closure returns [true]. *)
Lemma invoke_fetch_buffer k p path m :
  uses_buffer k = true ->
  invoke E (read_memory_func k (Some p) path) None m
  = (ok (v_bool true, read_memory_func k (Some p) path),
     mk_machine (links m)
       (<[p := stream_bytes E (open_mode k) path]> (buffers m))
       (meshes m) (materials m) (tasks m) (lane_now m)
       (log m ++ [(lane_now m, fs_open_call path)]) (crashed m)).
Proof. destruct k; intros H; try discriminate; reflexivity. Qed.


Lemma boot_load k key mode original held :
  exists p m1,
    load_from_file E k key mode original (boot held) = (ok 1%nat, m1)
    /\ tasks m1 =
         [ mk_task (fetch_lane mode) None
             (read_memory_func k (Some p) (compiled_path E k key)) None;
           mk_task main_lane (Some 0%nat)
             (create_resource_func k original (Some p) key) None ]
    /\ links m1 = held /\ log m1 = [] /\ crashed m1 = None
    /\ allocated k p m1.
Proof.
  destruct (load_from_file_tasks k key mode original (boot held))
    as (p&m1&H&HT&HL&HG&HC&HA).
  exists p, m1. repeat split; assumption.
Qed.


(** C8.  A synchronous texture load of [key] whose compiled file holds
    bytes, and for which the binding layer returns a memory block: one
    drain of the main lane runs both stages, and whenever the future of
    the load is ready it holds the original handle, whose link has
    identity [key] and a texture payload built from that block. *)
Theorem sync_texture_load key original held bytes mem :
  files E !! compiled_path E texture key = Some bytes -> bytes <> [] ->
  copy E (Some bytes) (to_uint32 (length bytes)) = Some mem ->
  let loaded := mk_link key (Some (res_texture (mk_texture mem 0 0))) in
  let m1 := (load_from_file E texture key sync original (boot held)).2 in
  (future_value (drain_main_lane E m1) 1 = Some (v_handle original)
   /\ link_of (drain_main_lane E m1) original = loaded)
  /\ (forall schedule v,
        future_value (run_schedule E schedule m1) 1 = Some v ->
        v = v_handle original
        /\ link_of (run_schedule E schedule m1) original = loaded).
Proof.
  intros Hf Hne Hc.
  destruct (boot_load texture key sync original held)
    as (p&m1&H&HT&HL&HG&HC&HA).
  rewrite H. cbn [snd]. cbn zeta.
  pose proof (invoke_fetch_buffer texture p (compiled_path E texture key)
                (set_lane main_lane m1) eq_refl) as I0.
  cbn [open_mode stream_bytes] in I0.
  rewrite Hf in I0. cbn [default] in I0.
  match type of I0 with _ = (ok (?v, ?w), ?mm) =>
    destruct (texture_create_resource_func_run original p key true
                (set_lane main_lane (set_tasks (alter (fire v w) 0%nat) mm))
                bytes mem) as (m2&Hr&Hlink&Hbuf&Ht);
      [cbn; apply lookup_insert_eq|assumption|assumption|];
    assert (I1 : invoke E (create_resource_func texture original (Some p) key)
                   (Some v)
                   (set_lane main_lane (set_tasks (alter (fire v w) 0%nat) mm))
                 = (ok (v_handle original,
                        create_resource_func texture original None key), m2))
  end.
  { cbn [invoke materialize]. unfold mbind, M_bind, bind. rewrite Hr.
    reflexivity. }
  destruct (two_stage_run m1 _ _ _ _ _ _ _ _ HC HT eq_refl eq_refl eq_refl
              eq_refl I0 I1) as [R0 R1].
  assert (D : drain_main_lane E m1 = run_task E 1 (run_task E 0 m1)).
  { unfold drain_main_lane. rewrite HT. reflexivity. }
  assert (F2 : future_value (run_task E 1 (run_task E 0 m1)) 1
               = Some (v_handle original)).
  { rewrite R1. unfold future_value. cbn. rewrite Ht. cbn. rewrite HT.
    reflexivity. }
  assert (L2 : link_of (run_task E 1 (run_task E 0 m1)) original
               = mk_link key (Some (res_texture (mk_texture mem 0 0)))).
  { rewrite R1. exact Hlink. }
  split; [rewrite D; split; assumption|].
  intros schedule v.
  destruct (two_stage_reachable m1 _ _ HT eq_refl eq_refl schedule) as [-> | [-> | ->]].
  - unfold future_value. rewrite HT. cbn. discriminate.
  - rewrite R0. unfold future_value. cbn. rewrite HT. cbn. discriminate.
  - rewrite F2. intros [= <-]. split; [reflexivity|exact L2].
Qed.

(** C2.  Materialize of a mesh whose status after [build_vb] and
    [build_ib] is not [prepared] returns the handle it was given and
    writes no link: identity and payload of the target are as before. *)
Theorem unprepared_mesh_not_published result wrapper key read_result m obj :
  meshes m !! wrapper = Some obj ->
  get_status E (obj ++ [build_vb; build_ib]) <> prepared ->
  exists m',
    mesh_create_resource_func E result (Some wrapper) key read_result m
      = (ok (result, None), m')
    /\ links m' = links m /\ link_of m' result = link_of m result.
Proof.
  intros Hw Hs.
  destruct (mesh_create_resource_func_run result wrapper key read_result m
              obj Hw) as (m'&Hr&_&Hl&_).
  exists m'. split; [exact Hr|]. specialize (Hl Hs).
  split; [exact Hl|]. unfold link_of. rewrite Hl. reflexivity.
Qed.

(** C3.  For every kind and both load modes, the Materialize closure is
    submitted as a main-lane continuation of the Fetch future, and in
    every execution of the load each graphics-API call is made on the
    main lane. *)
Theorem materialize_runs_on_main_lane k key mode original held schedule :
  let loaded := load_from_file E k key mode original (boot held) in
  (exists p,
      loaded.1 = ok 1%nat
      /\ tasks loaded.2 !! 1%nat
         = Some (mk_task main_lane (Some 0%nat)
                   (create_resource_func k original (Some p) key) None))
  /\ Forall on_its_lane (log (run_schedule E schedule loaded.2)).
Proof.
  destruct (boot_load k key mode original held)
    as (p&m1&H&HT&HL&HG&HC&HA).
  cbn zeta. rewrite H. cbn [fst snd]. split.
  - exists p. rewrite HT. split; reflexivity.
  - apply run_schedule_lanes_ok. split.
    + intros i t Hi Hlane. rewrite HT in Hi.
      destruct i as [|[|i]]; cbn in Hi; simplify_eq; cbn in *;
        try reflexivity; discriminate.
    + rewrite HG. constructor.
Qed.

(** C4.  For every kind, a load submits exactly two tasks: the Fetch
    closure, without antecedent, on the main lane when the mode is
    [sync] and on the worker lane when it is [async]; and the
    Materialize closure on the main lane as a continuation of the Fetch
    future.  The future returned is that of Materialize. *)
Theorem mode_selects_fetch_lane k key mode original m :
  exists p m',
    load_from_file E k key mode original m = (ok (S (length (tasks m))), m')
    /\ tasks m' =
         tasks m ++
         [ mk_task
             match mode with sync => main_lane | async => worker_lane end
             None (read_memory_func k (Some p) (compiled_path E k key)) None;
           mk_task main_lane (Some (length (tasks m)))
             (create_resource_func k original (Some p) key) None ].
Proof.
  destruct (load_from_file_tasks k key mode original m)
    as (p&m'&H&HT&_).
  exists p, m'. split; [exact H|]. rewrite HT. destruct mode; reflexivity.
Qed.

(** C5, at the input where the code departs from it.  When the compiled
    mesh file is missing and the decoder leaves the load record
    default-constructed, the Fetch closure of the mesh kind does not
    return [true]: it takes the address of element 0 of the empty
    [vertex_data]. *)
Theorem mesh_fetch_indexes_empty_vertex_data wrapper path m obj :
  files E !! path = None -> decode_mesh E [] = None ->
  meshes m !! wrapper = Some obj ->
  (fetch E mesh (Some wrapper) path m).1 = ub (out_of_range 0 0).
Proof.
  intros Hf Hd Hw. cbn [fetch].
  unfold mesh_read_memory_func, open_stream, try_load, mesh_invoke,
    wrapper_mesh, wrapper_mesh_assign. run.
  rewrite Hf. cbn. rewrite Hd. cbn. rewrite Hw. reflexivity.
Qed.

(** Fetch of the five other kinds returns [true] whatever the file
    holds. *)
Lemma fetch_returns_true k p path m :
  k <> mesh -> (k = material -> is_Some (materials m !! p)) ->
  exists m', fetch E k (Some p) path m = (ok true, m').
Proof.
  intros Hk Hm. destruct k; try congruence; cbn [fetch];
    unfold texture_read_memory_func, shader_read_memory_func,
      prefab_read_memory_func, scene_read_memory_func,
      material_read_memory_func, open_stream, try_load,
      wrapper_material, wrapper_material_assign; run;
    try (eexists; reflexivity).
  destruct (Hm eq_refl) as [obj Ho]. rewrite Ho.
  destruct (decode_material E _); eexists; reflexivity.
Qed.

Lemma guard_true data size :
  nothing_given data size ->
  bool_decide (data = None) && (size =? 0)%Z = true.
Proof.
  intros [-> ->]. reflexivity.
Qed.

Lemma guard_false data size :
  ~ nothing_given data size ->
  bool_decide (data = None) && (size =? 0)%Z = false.
Proof.
  intros H. apply not_true_is_false. intros Ht.
  apply andb_true_iff in Ht as [Hd Hs]. apply H. split.
  - apply bool_decide_eq_true in Hd. exact Hd.
  - apply Z.eqb_eq. exact Hs.
Qed.

(** The lambda of [load_from_memory<shader>], case by case. *)
Lemma shader_memory_create_resource_func_run key data size m :
  let h := mk_handle (fresh (dom (links m))) in
  exists m',
    shader_memory_create_resource_func E key data size m = (ok h, m')
    /\ (nothing_given data size ->
        link_of m' h = empty_link /\ log m' = log m)
    /\ (~ nothing_given data size ->
        (exists rest, log m' = log m ++ (lane_now m, gfx_copy_call) :: rest)
        /\ (copy E data size = None -> link_of m' h = empty_link)
        /\ (forall mem, copy E data size = Some mem ->
             link_of m' h
             = mk_link key
                 (Some (res_shader
                    (mk_shader (createShader E mem)
                       (map mk_uniform
                          (reflected_uniforms E (createShader E mem)))))))).
Proof.
  cbn zeta. unfold shader_memory_create_resource_func, new_handle, gfx_copy.
  run.
  destruct (decide (nothing_given data size)) as [Hg|Hg].
  - rewrite (guard_true _ _ Hg). eexists. split; [reflexivity|].
    split; [|tauto]. intros _. unfold link_of. cbn.
    rewrite lookup_insert_eq. split; reflexivity.
  - rewrite (guard_false _ _ Hg). cbn.
    destruct (copy E data size) as [mem|] eqn:Hc.
    + match goal with |- context [populate_shader E mem ?mm] =>
        destruct (populate_shader_run mem mm) as (m1&Hr&(Hl&_)&Ht);
        destruct (emits_populate_shader mem _ _ _ Hr) as (_&_&_&cs&Hlog&_)
      end.
      rewrite Hr. cbn in *. eexists. split; [reflexivity|].
      split; [tauto|]. intros _. split; [|split].
      * cbn. rewrite Hlog, <- app_assoc. eexists. reflexivity.
      * discriminate.
      * intros mem' [= <-]. unfold link_of. cbn. apply link_written.
    + eexists. split; [reflexivity|]. split; [tauto|]. intros _.
      split; [|split].
      * cbn. exists []. reflexivity.
      * intros _. unfold link_of. cbn. rewrite lookup_insert_eq. reflexivity.
      * discriminate.
Qed.

(** C6.  A shader materialized from bytes carries as many uniform objects
    as the binding layer reflects for its handle, populated with the
    reflected handles in reflection order.  This holds for the
    Materialize closure of [load_from_file<shader>], on any machine whose
    buffer holds bytes of which the binding layer makes a memory block;
    and, independently, for the closure of [load_from_memory<shader>], on
    any machine, whenever its guard does not fire and the binding layer
    makes a memory block of the data given. *)
Theorem shader_uniforms_follow_reflection :
  (forall result p key read_result m bytes mem,
      buffers m !! p = Some bytes -> bytes <> [] ->
      copy E (Some bytes) (to_uint32 (length bytes)) = Some mem ->
      exists m1 shdr,
        shader_create_resource_func E result (Some p) key read_result m
          = (ok (result, None), m1)
        /\ link_of m1 result = mk_link key (Some (res_shader shdr))
        /\ length (shdr_uniforms shdr)
           = length (reflected_uniforms E (shdr_handle shdr))
        /\ map uni_handle (shdr_uniforms shdr)
           = reflected_uniforms E (shdr_handle shdr))
  /\
  (forall key data size m mem,
      ~ nothing_given data size -> copy E data size = Some mem ->
      exists h m1 shdr,
        shader_memory_create_resource_func E key data size m = (ok h, m1)
        /\ link_of m1 h = mk_link key (Some (res_shader shdr))
        /\ length (shdr_uniforms shdr)
           = length (reflected_uniforms E (shdr_handle shdr))
        /\ map uni_handle (shdr_uniforms shdr)
           = reflected_uniforms E (shdr_handle shdr)).
Proof.
  assert (Hmap : forall l : list Z, map uni_handle (map mk_uniform l) = l).
  { induction l as [|x l IH]; cbn; congruence. }
  split.
  - intros result p key read_result m bytes mem Hb Hne Hc.
    destruct (shader_create_resource_func_run result p key read_result m
                bytes mem Hb Hne Hc) as (m1&Hr&Hl&_).
    eexists m1, _. split; [exact Hr|]. split; [exact Hl|]. cbn.
    rewrite length_map, Hmap. split; reflexivity.
  - intros key data size m mem Hg Hc.
    destruct (shader_memory_create_resource_func_run key data size m)
      as (m1&Hr&_&Hpop).
    destruct (Hpop Hg) as (_&_&Hl).
    eexists _, m1, _. split; [exact Hr|]. split; [exact (Hl _ Hc)|]. cbn.
    rewrite length_map, Hmap. split; reflexivity.
Qed.

(** C9, as amended.  The closure of [load_from_memory<shader>] returns a
    handle on a fresh link; that link is left default exactly when the
    data pointer is null and the size zero, or the binding layer returns
    no memory block.  The binding layer is not called when the data
    pointer is null and the size zero, and is called first with
    [gfx::copy] in every other case, a null pointer with a non-zero size
    included. *)
Theorem memory_shader_default_handle key data size m :
  exists h m',
    shader_memory_create_resource_func E key data size m = (ok h, m')
    /\ (link_of m' h = empty_link
        <-> nothing_given data size \/ copy E data size = None)
    /\ (nothing_given data size -> log m' = log m)
    /\ (~ nothing_given data size ->
        exists rest, log m' = log m ++ (lane_now m, gfx_copy_call) :: rest).
Proof.
  destruct (shader_memory_create_resource_func_run key data size m)
    as (m'&Hr&Hnone&Hsome).
  eexists _, m'. split; [exact Hr|]. split; [|split].
  - destruct (decide (nothing_given data size)) as [Hg|Hg].
    + split; [auto|]. intros _. apply Hnone, Hg.
    + destruct (Hsome Hg) as (_&Hfail&Hok).
      destruct (copy E data size) as [mem|] eqn:Hc.
      * rewrite (Hok mem eq_refl). split; [discriminate|].
        intros [?|?]; [contradiction|discriminate].
      * split; [auto|]. intros _. apply Hfail. reflexivity.
  - intros Hg. apply Hnone, Hg.
  - intros Hg. apply Hsome, Hg.
Qed.

Lemma buffer_cleared_without_memory k result p key b m bytes :
  k = texture \/ k = shader ->
  buffers m !! p = Some bytes -> bytes <> [] ->
  copy E (Some bytes) (to_uint32 (length bytes)) = None ->
  exists m', materialize E k result (Some p) key b m = (ok (result, None), m')
             /\ buffers m' !! p = Some [].
Proof.
  intros [-> | ->] Hb Hne Hc; cbn [materialize];
    unfold texture_create_resource_func, shader_create_resource_func,
      buffer_at, gfx_copy; run;
    rewrite Hb, (vector_nonempty _ Hne), Hc; cbn;
    (eexists; split; [reflexivity|]); cbn; apply lookup_insert_eq.
Qed.

(** C7, as amended.  When Materialize has consumed what Fetch left: for
    a texture and a shader the byte array is empty and the closure's
    pointer to it reset; for a mesh and a material the closure's wrapper
    pointer is reset; for a prefab and a scene the stream is not
    released, the closure still points to it, its bytes are untouched and
    the published payload refers to it. *)
Theorem materialize_releases_buffer k result p key read_result m :
  fetched k p m ->
  released k result p m
    (materialize E k result (Some p) key read_result m).1
    (materialize E k result (Some p) key read_result m).2.
Proof.
  destruct k; cbn [fetched released materialize].
  - intros (bytes&Hb&Hne).
    destruct (copy E (Some bytes) (to_uint32 (length bytes))) as [mem|] eqn:Hc.
    + destruct (texture_create_resource_func_run result p key read_result m
                  bytes mem Hb Hne Hc) as (m'&Hr&_&Hbuf&_).
      rewrite Hr. split; [reflexivity|exact Hbuf].
    + destruct (buffer_cleared_without_memory texture result p key
                  read_result m bytes (or_introl eq_refl) Hb Hne Hc)
        as (m'&Hr&Hbuf).
      cbn [materialize] in Hr. rewrite Hr. split; [reflexivity|exact Hbuf].
  - intros (bytes&Hb&Hne).
    destruct (copy E (Some bytes) (to_uint32 (length bytes))) as [mem|] eqn:Hc.
    + destruct (shader_create_resource_func_run result p key read_result m
                  bytes mem Hb Hne Hc) as (m'&Hr&_&Hbuf&_).
      rewrite Hr. split; [reflexivity|exact Hbuf].
    + destruct (buffer_cleared_without_memory shader result p key
                  read_result m bytes (or_intror eq_refl) Hb Hne Hc)
        as (m'&Hr&Hbuf).
      cbn [materialize] in Hr. rewrite Hr. split; [reflexivity|exact Hbuf].
  - intros [obj Ho].
    destruct (mesh_create_resource_func_run result p key read_result m obj Ho)
      as (m'&Hr&_).
    rewrite Hr. reflexivity.
  - intros [obj Ho].
    destruct (material_create_resource_func_run result p key read_result m
                obj Ho) as (m'&Hr&_).
    rewrite Hr. reflexivity.
  - intros _.
    destruct (prefab_create_resource_func_run result (Some p) key
                read_result m) as (m'&Hr&Hl&Hb&_).
    rewrite Hr. cbn. rewrite Hl. repeat split; auto.
  - intros _.
    destruct (scene_create_resource_func_run result (Some p) key
                read_result m) as (m'&Hr&Hl&Hb&_).
    rewrite Hr. cbn. rewrite Hl. repeat split; auto.
Qed.

End pipeline_facts.

(** ** The properties on the sample collaborators *)

Section samples.

Import runtime.



Lemma unprepared_mesh_not_published_witness :
  meshes unfed_mesh !! 0%nat = Some []
  /\ get_status sample_env ([] ++ [build_vb; build_ib]) <> prepared
  /\ exists m',
      mesh_create_resource_func sample_env sample_handle (Some 0%nat)
        "bar" true unfed_mesh = (ok (sample_handle, None), m')
      /\ links m' = links unfed_mesh
      /\ link_of m' sample_handle = link_of unfed_mesh sample_handle.
Proof.
  split; [vm_compute; reflexivity|].
  split; [vm_compute; discriminate|].
  apply (unprepared_mesh_not_published sample_env sample_handle 0%nat "bar"
           true unfed_mesh []);
    [vm_compute; reflexivity | vm_compute; discriminate].
Defined.

Lemma mesh_fetch_indexes_empty_vertex_data_witness :
  files sample_env !! "bar.asset"%string = None
  /\ decode_mesh sample_env [] = None
  /\ meshes unfed_mesh !! 0%nat = Some []
  /\ (fetch sample_env mesh (Some 0%nat) "bar.asset" unfed_mesh).1
     = ub (out_of_range 0 0).
Proof.
  split; [vm_compute; reflexivity|]. split; [reflexivity|].
  split; [vm_compute; reflexivity|].
  apply (mesh_fetch_indexes_empty_vertex_data sample_env 0%nat "bar.asset"
           unfed_mesh []); vm_compute; reflexivity.
Defined.

Lemma shader_uniforms_follow_reflection_witness :
  ((buffers fetched_bytes !! 0%nat = Some [x01; x02; x03]
    /\ [x01; x02; x03] <> []
    /\ copy sample_env (Some [x01; x02; x03])
         (to_uint32 (length [x01; x02; x03]))
       = Some (mkMemory [x01; x02; x03] 3))
   /\ exists m1 shdr,
       shader_create_resource_func sample_env sample_handle (Some 0%nat)
         "foo" true fetched_bytes = (ok (sample_handle, None), m1)
       /\ link_of m1 sample_handle = mk_link "foo" (Some (res_shader shdr))
       /\ length (shdr_uniforms shdr)
          = length (reflected_uniforms sample_env (shdr_handle shdr))
       /\ map uni_handle (shdr_uniforms shdr)
          = reflected_uniforms sample_env (shdr_handle shdr))
  /\
  ((~ nothing_given (Some [x04]) 1
    /\ copy sample_env (Some [x04]) 1 = Some (mkMemory [x04] 1))
   /\ exists h m1 shdr,
       shader_memory_create_resource_func sample_env "mem" (Some [x04]) 1
         (boot ∅) = (ok h, m1)
       /\ link_of m1 h = mk_link "mem" (Some (res_shader shdr))
       /\ length (shdr_uniforms shdr)
          = length (reflected_uniforms sample_env (shdr_handle shdr))
       /\ map uni_handle (shdr_uniforms shdr)
          = reflected_uniforms sample_env (shdr_handle shdr)).
Proof.
  assert (Hb : buffers fetched_bytes !! 0%nat = Some [x01; x02; x03])
    by (vm_compute; reflexivity).
  assert (Hne : [x01; x02; x03] <> []) by discriminate.
  assert (Hg : ~ nothing_given (Some [x04]) 1)
    by (intros [H _]; discriminate H).
  destruct (shader_uniforms_follow_reflection sample_env) as [Hfile Hmem].
  split; (split; [repeat split; try assumption; reflexivity|]).
  - apply (Hfile sample_handle 0%nat "foo"%string true fetched_bytes
             [x01; x02; x03] (mkMemory [x01; x02; x03] 3) Hb Hne eq_refl).
  - apply (Hmem "mem"%string (Some [x04]) 1%Z (boot ∅)
             (mkMemory [x04] 1) Hg eq_refl).
Defined.

(** Counterexample to C7 as stated.  The compiled prefab [foo.asset]
    holds three bytes; when Materialize has returned, the closure still
    points to the stream and the stream still holds the three bytes: the
    published prefab keeps it. *)
Lemma prefab_stream_outlives_materialize :
  let done :=
    run_schedule sample_env [0; 1]%nat
      (load_from_file sample_env prefab "foo" async sample_handle
         (boot ∅)).2 in
  future_value done 1 = Some (v_handle sample_handle)
  /\ task_work <$> tasks done !! 1%nat
     = Some (create_resource_func prefab sample_handle (Some 0%nat) "foo")
  /\ buffers done !! 0%nat = Some [x01; x02; x03]
  /\ asset (link_of done sample_handle)
     = Some (res_prefab (mk_prefab (Some 0%nat))).
Proof. cbn zeta. repeat split; vm_compute; reflexivity. Qed.

Lemma materialize_releases_buffer_witness :
  fetched texture 0%nat fetched_bytes
  /\ released texture sample_handle 0%nat fetched_bytes
       (materialize sample_env texture sample_handle (Some 0%nat) "foo"
          true fetched_bytes).1
       (materialize sample_env texture sample_handle (Some 0%nat) "foo"
          true fetched_bytes).2.
Proof.
  assert (H : fetched texture 0%nat fetched_bytes).
  { exists [x01; x02; x03]. split; [vm_compute; reflexivity|discriminate]. }
  split; [exact H|].
  apply (materialize_releases_buffer sample_env texture sample_handle 0%nat
           "foo" true fetched_bytes H).
Defined.

Lemma sync_texture_load_witness :
  (files sample_env !! compiled_path sample_env texture "foo"
     = Some [x01; x02; x03]
   /\ [x01; x02; x03] <> []
   /\ copy sample_env (Some [x01; x02; x03])
        (to_uint32 (length [x01; x02; x03]))
      = Some (mkMemory [x01; x02; x03] 3))
  /\ link_of
       (drain_main_lane sample_env
          (load_from_file sample_env texture "foo" sync sample_handle
             (boot ∅)).2)
       sample_handle
     = mk_link "foo"
         (Some (res_texture (mk_texture (mkMemory [x01; x02; x03] 3) 0 0))).
Proof.
  assert (Hf : files sample_env !! compiled_path sample_env texture "foo"
               = Some [x01; x02; x03]) by (vm_compute; reflexivity).
  assert (Hne : [x01; x02; x03] <> []) by discriminate.
  split; [repeat split; try assumption; reflexivity|].
  apply (sync_texture_load sample_env "foo" sample_handle ∅
           [x01; x02; x03] (mkMemory [x01; x02; x03] 3) Hf Hne eq_refl).
Defined.

(** Counterexample to C9 as stated.  The data pointer is not null and
    the size is 1, yet the handle returned is a default one: the binding
    layer gave no memory block. *)
Lemma default_handle_without_memory_block :
  let r :=
    shader_memory_create_resource_func exhausted_env "k" (Some [x01]) 1
      (boot ∅) in
  ~ nothing_given (Some [x01]) 1
  /\ r.1 = ok (mk_handle 0)
  /\ link_of r.2 (mk_handle 0) = empty_link.
Proof.
  cbn zeta. split; [intros [H _]; discriminate H|].
  split; vm_compute; reflexivity.
Qed.

End samples.

(** ** More on the camera *)

Section camera_more.

Import Camera.

Lemma SFltb_irrefl (a : float) : SFltb a a = false.
Proof.
  unfold SFltb. destruct (is_nan a) eqn:Hn.
  - destruct a; try discriminate. reflexivity.
  - rewrite (SFcompare_refl a Hn). reflexivity.
Qed.

Lemma SFltb_not_eq (a b : float) : SFltb a b = true -> SFeqb b a = false.
Proof.
  unfold SFltb, SFeqb. rewrite (SFcompare_swap b a).
  destruct (SFcompare a b) as [[]|]; simpl; congruence.
Qed.

Lemma SFeqb_sym (a b : float) : SFeqb a b = SFeqb b a.
Proof.
  unfold SFeqb. rewrite (SFcompare_swap b a).
  destruct (SFcompare a b) as [[]|]; reflexivity.
Qed.

Lemma SFcompare_nan_l (a : float) : SFcompare S754_nan a = None.
Proof. reflexivity. Qed.


Lemma is_nan_true (a : float) : is_nan a = true -> a = S754_nan.
Proof. destruct a; simpl; congruence. Qed.

(** What a call of [setNearClip] leaves, whatever the camera and the
    distance. *)
Lemma setNearClip_result (c : Camera) (d : float) (n : nat) :
  setNearClip (S (S n)) d c
  = Some (if feq d (mNearClip c) then c
          else if fgt d (mFarClip c)
               then onModified (storeFar d (onModified (storeNear d c)))
               else onModified (storeNear d c)).
Proof.
  destruct c as [near far vd pd fd]. simpl.
  destruct (feq d near); [reflexivity|].
  destruct (fgt d far) eqn:Hgt; [|reflexivity].
  unfold fgt, feq in *. rewrite (SFltb_not_eq _ _ Hgt), SFltb_irrefl.
  reflexivity.
Qed.

Lemma setFarClip_result (c : Camera) (d : float) (n : nat) :
  setFarClip (S (S n)) d c
  = Some (if feq d (mFarClip c) then c
          else if fgt (mNearClip c) d
               then onModified (storeNear d (onModified (storeFar d c)))
               else onModified (storeFar d c)).
Proof.
  destruct c as [near far vd pd fd]. simpl.
  destruct (feq d far); [reflexivity|].
  destruct (fgt near d) eqn:Hgt; [|reflexivity].
  unfold fgt, feq in *.
  rewrite SFeqb_sym, (SFltb_not_eq _ _ Hgt), SFltb_irrefl.
  reflexivity.
Qed.

(** X1.  The mutual recursion of the clip setters always ends: for every
    camera, ordered or not, and every distance, NaN included, a call
    returns within two nested calls, and a larger budget changes
    nothing. *)
Theorem clip_setters_always_return (c : Camera) (d : float) (n : nat) :
  (exists c', setNearClip 2 d c = Some c'
              /\ setNearClip (S (S n)) d c = Some c')
  /\ (exists c', setFarClip 2 d c = Some c'
                 /\ setFarClip (S (S n)) d c = Some c').
Proof.
  split; eexists; split.
  - apply (setNearClip_result c d 0).
  - apply (setNearClip_result c d n).
  - apply (setFarClip_result c d 0).
  - apply (setFarClip_result c d n).
Qed.

(** X2.  Setting a plane and reading it back: after [setNearClip d] with
    [d] a number, [getNearClip] compares equal to [d], and the far plane
    is [d] when the call changed the near plane to beyond it and is
    untouched otherwise; symmetrically for [setFarClip]. *)
Theorem clip_set_then_get (c : Camera) (d : float) (n : nat) :
  is_nan d = false ->
  (exists c', setNearClip (S (S n)) d c = Some c'
     /\ feq (mNearClip c') d = true
     /\ mFarClip c'
        = if negb (feq d (mNearClip c)) && fgt d (mFarClip c)
          then d else mFarClip c)
  /\ (exists c', setFarClip (S (S n)) d c = Some c'
        /\ feq (mFarClip c') d = true
        /\ mNearClip c'
           = if negb (feq d (mFarClip c)) && fgt (mNearClip c) d
             then d else mNearClip c).
Proof.
  intros Hd.
  assert (Hr : feq d d = true).
  { unfold feq, SFeqb. rewrite (SFcompare_refl d Hd). reflexivity. }
  split; eexists.
  - split; [apply setNearClip_result|].
    destruct c as [near far vd pd fd]; simpl.
    destruct (feq d near) eqn:He; simpl.
    + split; [|reflexivity]. unfold feq in *. rewrite SFeqb_sym. exact He.
    + destruct (fgt d far); simpl; auto.
  - split; [apply setFarClip_result|].
    destruct c as [near far vd pd fd]; simpl.
    destruct (feq d far) eqn:He; simpl.
    + split; [|reflexivity]. unfold feq in *. rewrite SFeqb_sym. exact He.
    + destruct (fgt near d); simpl; auto.
Qed.



Import CameraState.

Lemma not_lt_le (a b : float) :
  is_nan a = false -> is_nan b = false -> SFltb a b = false -> SFleb b a = true.
Proof.
  intros Ha Hb. unfold SFltb, SFleb. rewrite (SFcompare_swap b a).
  destruct (SFcompare_total a b Ha Hb) as [x ->].
  destruct x; simpl; congruence.
Qed.

Lemma le_not_lt (a b : float) : SFleb a b = true -> SFltb b a = false.
Proof.
  unfold SFltb, SFleb. rewrite (SFcompare_swap b a).
  destruct (SFcompare a b) as [[]|]; simpl; congruence.
Qed.

Lemma setZoomFactor_clamps (fZoom : float) (s : State) :
  is_nan fZoom = false -> zoom_in_range (setZoomFactor fZoom s).
Proof.
  intros Hn. unfold zoom_in_range, setZoomFactor, flt, fgt, fle.
  cbn [mZoomFactor modified set_clip set_mZoomFactor].
  destruct (SFltb fZoom MinZoomFactor) eqn:Hlo; [split; reflexivity|].
  destruct (SFltb MaxZoomFactor fZoom) eqn:Hhi; [split; reflexivity|].
  split; apply not_lt_le; auto.
Qed.

Lemma estimateZoomFactor_is_number (distance : float) :
  is_nan (estimateZoomFactor distance FLT_MAX) = false.
Proof.
  unfold estimateZoomFactor, fmin, flt.
  destruct (SFltb distance FLT_MAX) eqn:Hlt; [|reflexivity].
  destruct distance; try reflexivity. discriminate Hlt.
Qed.

(** X4.  [setZoomFactor] clamps: a zoom factor that is a number is stored
    within [MinZoomFactor, MaxZoomFactor], and unchanged when it already
    lies there; a NaN passes both comparisons and is stored as it is. *)
Theorem zoom_factor_clamped (fZoom : float) (s : State) :
  (is_nan fZoom = false ->
     zoom_in_range (setZoomFactor fZoom s)
     /\ (fle MinZoomFactor fZoom = true -> fle fZoom MaxZoomFactor = true ->
         getZoomFactor (setZoomFactor fZoom s) = fZoom))
  /\ (is_nan fZoom = true ->
      is_nan (getZoomFactor (setZoomFactor fZoom s)) = true).
Proof.
  split.
  - intros Hn. unfold zoom_in_range, getZoomFactor, setZoomFactor, flt, fgt,
      fle. cbn [mZoomFactor modified set_clip set_mZoomFactor].
    destruct (SFltb fZoom MinZoomFactor) eqn:Hlo.
    + split; [split; reflexivity|].
      intros Hle. apply le_not_lt in Hle. congruence.
    + destruct (SFltb MaxZoomFactor fZoom) eqn:Hhi.
      * split; [split; reflexivity|].
        intros _ Hle. apply le_not_lt in Hle. congruence.
      * split; [|reflexivity]. split.
        -- apply not_lt_le; auto.
        -- apply not_lt_le; auto.
  - intros Hn. apply is_nan_true in Hn. subst. reflexivity.
Qed.

(** X5.  [isAspectLocked] after [setAspectRatio]: the lock flag is taken
    over whether or not the ratio changed, and an orthographic camera is
    locked whatever the flag; the ratio read back compares equal to the
    one given when that is a number. *)
Theorem aspect_lock_follows_call (fAspect : float) (bLocked : bool)
    (s : State) :
  isAspectLocked (setAspectRatio fAspect bLocked s)
  = (bool_decide (getProjectionMode s = Orthographic) || bLocked)
  /\ (is_nan fAspect = false ->
      feq (getAspectRatio (setAspectRatio fAspect bLocked s)) fAspect = true).
Proof.
  unfold isAspectLocked, getAspectRatio, setAspectRatio, getProjectionMode.
  destruct (feq fAspect (mAspectRatio s)) eqn:He; cbn.
  - split; [reflexivity|]. intros _. unfold feq in *.
    rewrite SFeqb_sym. exact He.
  - split; [reflexivity|]. intros Hn. unfold feq, SFeqb.
    rewrite (SFcompare_refl _ Hn). reflexivity.
Qed.

Section with_halton.

Variable halton : Z -> Z -> float.

Lemma sample_at_in_bounds (X Y : list float) (i : Z) :
  length X = length Y -> (0 <= i)%Z ->
  (sample_at X Y i = None <-> (Z.of_nat (length X) <= i)%Z).
Proof.
  intros HL Hi. unfold sample_at.
  destruct (X !! Z.to_nat i) as [x|] eqn:Hx.
  - apply lookup_lt_Some in Hx.
    destruct (Y !! Z.to_nat i) as [y|] eqn:Hy.
    + split; [discriminate|lia].
    + apply lookup_ge_None in Hy. lia.
  - apply lookup_ge_None in Hx. split; [lia|reflexivity].
Qed.

Lemma setAAData_returns (viewportSize : uSize) (index samples : Z)
    (s : State) :
  (0 <= index)%Z ->
  ((samples = 2 \/ samples = 3 \/ samples = 4)%Z -> (index < samples)%Z) ->
  exists s', setAAData halton viewportSize index samples s = Some s'.
Proof.
  intros Hi Hb. unfold setAAData.
  pose proof (sample_at_in_bounds SamplesX2 SamplesY2 index eq_refl Hi) as H2.
  pose proof (sample_at_in_bounds SamplesX3 SamplesY3 index eq_refl Hi) as H3.
  pose proof (sample_at_in_bounds SamplesX4 SamplesY4 index eq_refl Hi) as H4.
  change (Z.of_nat (length SamplesX2)) with 2%Z in H2.
  change (Z.of_nat (length SamplesX3)) with 3%Z in H3.
  change (Z.of_nat (length SamplesX4)) with 4%Z in H4.
  destruct (1 <? samples)%Z; [|eauto].
  destruct (samples =? 2)%Z eqn:E2.
  { apply Z.eqb_eq in E2.
    destruct (sample_at SamplesX2 SamplesY2 index) as [[x y]|]; [eauto|].
    assert (2 <= index)%Z by (apply H2; reflexivity). lia. }
  destruct (samples =? 3)%Z eqn:E3.
  { apply Z.eqb_eq in E3.
    destruct (sample_at SamplesX3 SamplesY3 index) as [[x y]|]; [eauto|].
    assert (3 <= index)%Z by (apply H3; reflexivity). lia. }
  destruct (samples =? 4)%Z eqn:E4.
  { apply Z.eqb_eq in E4.
    destruct (sample_at SamplesX4 SamplesY4 index) as [[x y]|]; [eauto|].
    assert (4 <= index)%Z by (apply H4; reflexivity). lia. }
  destruct (samples =? 8)%Z; eauto.
Qed.

(** X6.  [setAAData] indexes its sample tables with the sub-pixel index
    unchecked: with 2, 3 or 4 samples it reads past the table exactly when
    the index is not below the sample count, and with any other count it
    never does.  When it returns it has flagged the projection and changed
    nothing but the jitter data, which are zero for at most one sample. *)
Theorem setAAData_bounds (viewportSize : uSize) (index samples : Z)
    (s : State) :
  (0 <= index)%Z ->
  (setAAData halton viewportSize index samples s = None
   <-> ((samples = 2 \/ samples = 3 \/ samples = 4)%Z /\ (samples <= index)%Z))
  /\ (forall s', setAAData halton viewportSize index samples s = Some s' ->
       mProjectionDirty (clip s') = true
       /\ set_mAAData (mAAData s) s' = set_mProjectionDirty true s
       /\ ((samples <= 1)%Z ->
           getAAData s'
           = mkVec4 (of_uint32 0) (of_uint32 0) (of_uint32 0) (of_uint32 0))).
Proof.
  intros Hi. unfold setAAData.
  pose proof (sample_at_in_bounds SamplesX2 SamplesY2 index eq_refl Hi) as H2.
  pose proof (sample_at_in_bounds SamplesX3 SamplesY3 index eq_refl Hi) as H3.
  pose proof (sample_at_in_bounds SamplesX4 SamplesY4 index eq_refl Hi) as H4.
  change (Z.of_nat (length SamplesX2)) with 2%Z in H2.
  change (Z.of_nat (length SamplesX3)) with 3%Z in H3.
  change (Z.of_nat (length SamplesX4)) with 4%Z in H4.
  destruct (1 <? samples)%Z eqn:H1.
  - apply Z.ltb_lt in H1.
    assert (Hpost : forall (x y : float) s',
      Some (set_mProjectionDirty true
              (set_mAAData
                 (mkVec4 (of_uint32 index) (of_uint32 samples)
                    (fmul x (fdiv (of_uint32 2) (of_uint32 (width viewportSize))))
                    (fmul y (fdiv (of_uint32 2) (of_uint32 (height viewportSize)))))
                 s)) = Some s' ->
      mProjectionDirty (clip s') = true
      /\ set_mAAData (mAAData s) s' = set_mProjectionDirty true s
      /\ ((samples <= 1)%Z ->
          getAAData s'
          = mkVec4 (of_uint32 0) (of_uint32 0) (of_uint32 0) (of_uint32 0))).
    { intros x y s' [= <-]. destruct s as [[? ? ? ? ?] ? ? ? ? ? ? ? ? ?].
      repeat split; try reflexivity. lia. }
    destruct (samples =? 2)%Z eqn:E2; [apply Z.eqb_eq in E2|apply Z.eqb_neq in E2].
    { destruct (sample_at SamplesX2 SamplesY2 index) as [[x y]|] eqn:Hs.
      - split; [split; [discriminate|]|apply Hpost].
        intros [_ Hge]. assert (Some (x, y) = None) by (apply H2; lia).
        discriminate.
      - split; [|discriminate]. split; [|reflexivity].
        intros _. split; [auto|]. assert (2 <= index)%Z by (apply H2; reflexivity).
        lia. }
    destruct (samples =? 3)%Z eqn:E3; [apply Z.eqb_eq in E3|apply Z.eqb_neq in E3].
    { destruct (sample_at SamplesX3 SamplesY3 index) as [[x y]|] eqn:Hs.
      - split; [split; [discriminate|]|apply Hpost].
        intros [_ Hge]. assert (Some (x, y) = None) by (apply H3; lia).
        discriminate.
      - split; [|discriminate]. split; [|reflexivity].
        intros _. split; [auto|]. assert (3 <= index)%Z by (apply H3; reflexivity).
        lia. }
    destruct (samples =? 4)%Z eqn:E4; [apply Z.eqb_eq in E4|apply Z.eqb_neq in E4].
    { destruct (sample_at SamplesX4 SamplesY4 index) as [[x y]|] eqn:Hs.
      - split; [split; [discriminate|]|apply Hpost].
        intros [_ Hge]. assert (Some (x, y) = None) by (apply H4; lia).
        discriminate.
      - split; [|discriminate]. split; [|reflexivity].
        intros _. split; [auto|]. assert (4 <= index)%Z by (apply H4; reflexivity).
        lia. }
    destruct (samples =? 8)%Z;
      (split; [split; [discriminate|intros [[?|[?|?]] _]; lia]|apply Hpost]).
  - apply Z.ltb_ge in H1. split.
    + split; [discriminate|]. intros [[?|[?|?]] _]; lia.
    + intros s' [= <-]. destruct s as [[? ? ? ? ?] ? ? ? ? ? ? ? ? ?].
      repeat split; reflexivity.
Qed.


(** Calls other than the clip setters leave both planes where they are. *)
Lemma perform_keeps_planes (a : api) (s s' : State) :
  perform halton a s = Some s' ->
  (forall d, a <> SetNearClip d) -> (forall d, a <> SetFarClip d) ->
  mNearClip (clip s') = mNearClip (clip s)
  /\ mFarClip (clip s') = mFarClip (clip s).
Proof.
  intros Hc Hn Hf.
  destruct a; cbn [perform] in Hc;
    try (exfalso; eapply Hn; reflexivity);
    try (exfalso; eapply Hf; reflexivity);
    try (injection Hc as <-).
  - split; reflexivity.
  - unfold setFOV. destruct (feq _ _); split; reflexivity.
  - split; reflexivity.
  - unfold setProjectionMode. destruct (decide _); split; reflexivity.
  - split; reflexivity.
  - unfold setAspectRatio. destruct (feq _ _); split; reflexivity.
  - unfold getProj. repeat case_match; split; reflexivity.
  - split; reflexivity.
  - unfold getFrustum, getProj. repeat case_match; split; reflexivity.
  - unfold getClippingVolume, getFrustum, getProj.
    repeat case_match; split; reflexivity.
  - unfold update, recordCurrentMatrices, getProj.
    repeat case_match; split; reflexivity.
  - unfold setAAData in Hc. repeat case_match; simplify_eq; split; reflexivity.
  - unfold setViewportSize, setAspectRatio.
    destruct (feq _ _); split; reflexivity.
Qed.

Lemma perform_keeps_order (a : api) (s s' : State) :
  usable a -> perform halton a s = Some s' ->
  clip_ordered (clip s) -> clip_ordered (clip s').
Proof.
  intros Hu Hc Ho.
  assert (Hother : (forall d, a <> SetNearClip d) ->
                   (forall d, a <> SetFarClip d) -> clip_ordered (clip s')).
  { intros Hn Hf. destruct (perform_keeps_planes a s s' Hc Hn Hf) as [En Ef].
    unfold clip_ordered in *. rewrite En, Ef. exact Ho. }
  destruct a; try (apply Hother; intros; discriminate).
  - cbn in Hu, Hc. unfold CameraState.setNearClip in Hc.
    destruct (setNearClip_ordered (clip s) fDistance 0 Hu Ho) as (c'&Hr&Ho'&_).
    rewrite Hr in Hc. injection Hc as <-. exact Ho'.
  - cbn in Hu, Hc. unfold CameraState.setFarClip in Hc.
    destruct (setFarClip_ordered (clip s) fDistance 0 Hu Ho) as (c'&Hr&Ho'&_).
    rewrite Hr in Hc. injection Hc as <-. exact Ho'.
Qed.

Lemma perform_keeps_zoom_in_range (a : api) (s s' : State) :
  usable a -> perform halton a s = Some s' ->
  zoom_in_range s -> zoom_in_range s'.
Proof.
  intros Hu Hc Hz.
  destruct a; cbn [perform] in Hc; try (injection Hc as <-).
  - apply setZoomFactor_clamps. exact Hu.
  - unfold setFOV. destruct (feq _ _); exact Hz.
  - exact Hz.
  - unfold setProjectionMode. destruct (decide _); exact Hz.
  - unfold CameraState.setNearClip in Hc.
    destruct (Camera.setNearClip _ _ _); simplify_eq. exact Hz.
  - unfold CameraState.setFarClip in Hc.
    destruct (Camera.setFarClip _ _ _); simplify_eq. exact Hz.
  - exact Hz.
  - unfold setAspectRatio. destruct (feq _ _); exact Hz.
  - unfold getProj. repeat case_match; exact Hz.
  - exact Hz.
  - unfold getFrustum, getProj. repeat case_match; exact Hz.
  - unfold getClippingVolume, getFrustum, getProj. repeat case_match; exact Hz.
  - unfold update, recordCurrentMatrices, getProj. repeat case_match; exact Hz.
  - unfold setAAData in Hc. repeat case_match; simplify_eq; exact Hz.
  - apply setZoomFactor_clamps. apply estimateZoomFactor_is_number.
Qed.

Lemma perform_keeps_flag_coupling (a : api) (s s' : State) :
  perform halton a s = Some s' ->
  aspect_implies_projection s -> aspect_implies_projection s'.
Proof.
  unfold aspect_implies_projection. intros Hc Hi.
  destruct a; cbn [perform] in Hc; try (injection Hc as <-).
  - intros _. reflexivity.
  - unfold setFOV. destruct (feq _ _); [exact Hi|intros _; reflexivity].
  - intros _. reflexivity.
  - unfold setProjectionMode.
    destruct (decide _); [exact Hi|intros _; reflexivity].
  - unfold CameraState.setNearClip in Hc.
    rewrite (setNearClip_result (clip s) fDistance 0) in Hc.
    injection Hc as <-. cbn. repeat case_match; auto.
  - unfold CameraState.setFarClip in Hc.
    rewrite (setFarClip_result (clip s) fDistance 0) in Hc.
    injection Hc as <-. cbn. repeat case_match; auto.
  - exact Hi.
  - unfold setAspectRatio. destruct (feq _ _); [exact Hi|intros _; reflexivity].
  - unfold getProj. repeat case_match; cbn; intros Hdirty;
      try discriminate Hdirty; try congruence; auto.
  - intros _. reflexivity.
  - unfold getFrustum, getProj. repeat case_match; cbn; intros Hdirty;
      try discriminate Hdirty; try congruence; auto.
  - unfold getClippingVolume, getFrustum, getProj.
    repeat case_match; cbn; intros Hdirty;
      try discriminate Hdirty; try congruence; auto.
  - unfold update, recordCurrentMatrices, getProj.
    repeat case_match; cbn; intros Hdirty;
      try discriminate Hdirty; try congruence; auto.
  - unfold setAAData in Hc. repeat case_match; simplify_eq; intros _; reflexivity.
  - intros _. reflexivity.
Qed.

Lemma perform_returns (a : api) (s : State) :
  usable a -> exists s', perform halton a s = Some s'.
Proof.
  intros Hu. destruct a; cbn [perform]; try (eexists; reflexivity).
  - unfold CameraState.setNearClip.
    rewrite (setNearClip_result (clip s) fDistance 0). eexists; reflexivity.
  - unfold CameraState.setFarClip.
    rewrite (setFarClip_result (clip s) fDistance 0). eexists; reflexivity.
  - destruct Hu as [H0 Hb]. apply setAAData_returns; assumption.
Qed.

Lemma perform_all_returns (l : list api) (s : State) :
  Forall usable l -> exists s', perform_all halton l s = Some s'.
Proof.
  revert s. induction l as [|a l IH]; intros s Hu; cbn [perform_all]; [eauto|].
  apply Forall_cons in Hu as [Ha Hl].
  destruct (perform_returns a s Ha) as [s1 ->]. apply IH, Hl.
Qed.

Lemma perform_all_keeps (P : State -> Prop) (l : list api) (s s' : State) :
  (forall a s s', In a l -> perform halton a s = Some s' -> P s -> P s') ->
  perform_all halton l s = Some s' -> P s -> P s'.
Proof.
  revert s. induction l as [|a l IH]; intros s Hstep Hc Hp; cbn [perform_all] in Hc.
  - congruence.
  - destruct (perform halton a s) as [s1|] eqn:H1; [|discriminate].
    apply (IH s1); auto.
    + intros; eapply Hstep; eauto. right. assumption.
    + eapply Hstep; eauto. left. reflexivity.
Qed.

(** X7.  From the constructed camera, any sequence of calls whose clip
    distances and zoom factors are numbers, and whose sub-pixel indices
    lie within their sample patterns, runs to its end and leaves
    [mNearClip <= mFarClip]. *)
Theorem camera_calls_keep_clip_order (l : list api) :
  Forall usable l ->
  exists s', perform_all halton l constructed = Some s' /\ clip_ordered (clip s').
Proof.
  intros Hu. destruct (perform_all_returns l constructed Hu) as [s' Hs].
  exists s'. split; [exact Hs|].
  apply (perform_all_keeps (fun s => clip_ordered (clip s)) l constructed s');
    [|exact Hs|reflexivity].
  intros a s1 s2 Hin Hc. apply (perform_keeps_order a s1 s2); [|exact Hc].
  rewrite Forall_forall in Hu. apply Hu, list_elem_of_In, Hin.
Qed.

(** X8.  From the constructed camera, any such sequence of calls leaves
    the zoom factor within [MinZoomFactor, MaxZoomFactor]. *)
Theorem camera_calls_keep_zoom_in_range (l : list api) :
  Forall usable l ->
  exists s', perform_all halton l constructed = Some s' /\ zoom_in_range s'.
Proof.
  intros Hu. destruct (perform_all_returns l constructed Hu) as [s' Hs].
  exists s'. split; [exact Hs|].
  apply (perform_all_keeps zoom_in_range l constructed s');
    [|exact Hs|split; reflexivity].
  intros a s1 s2 Hin Hc.
  apply (perform_keeps_zoom_in_range a s1 s2); [|exact Hc].
  rewrite Forall_forall in Hu. apply Hu, list_elem_of_In, Hin.
Qed.

(** X9.  In every state a camera reaches from its constructor, a flagged
    aspect ratio comes with a flagged projection; so [getProj] never takes
    its branch that patches the aspect ratio alone, and after it neither
    flag is set. *)
Theorem aspect_only_refresh_unreachable (l : list api) (s : State) :
  perform_all halton l constructed = Some s ->
  aspect_implies_projection s
  /\ (getProj s).1 <> aspect_patched
  /\ mProjectionDirty (clip (getProj s).2) = false
  /\ mAspectDirty (getProj s).2 = false.
Proof.
  intros Hs.
  assert (Hi : aspect_implies_projection s).
  { apply (perform_all_keeps aspect_implies_projection l constructed s);
      [|exact Hs|intros _; reflexivity].
    intros a s1 s2 _ Hc. apply (perform_keeps_flag_coupling a s1 s2 Hc). }
  split; [exact Hi|]. unfold aspect_implies_projection in Hi.
  unfold getProj, getProjectionMode.
  destruct (mProjectionMode s), (mProjectionDirty (clip s)) eqn:Hp,
    (mAspectDirty s) eqn:Ha; cbn; repeat split; try discriminate; auto.
  all: specialize (Hi eq_refl); discriminate.
Qed.
End with_halton.

(** X10.  [setViewportSize] always leaves the zoom factor within its
    bounds: [std::min] in [estimateZoomFactor] gives [FLT_MAX] when the
    estimated distance is a NaN, which [setZoomFactor] then clamps to
    [MaxZoomFactor].  It also drops the aspect lock, keeps both clip
    planes and flags view, projection and frustum. *)
Theorem viewport_resize_bounds_zoom (viewportSize : uSize) (distance : float)
    (s : State) :
  let s' := setViewportSize viewportSize distance s in
  zoom_in_range s'
  /\ (is_nan distance = true -> getZoomFactor s' = MaxZoomFactor)
  /\ isAspectLocked s' = bool_decide (getProjectionMode s = Orthographic)
  /\ clip s' = onModified (clip s).
Proof.
  cbv zeta. split; [|split; [|split]].
  - unfold setViewportSize. apply setZoomFactor_clamps.
    apply estimateZoomFactor_is_number.
  - intros Hn. apply is_nan_true in Hn. subst distance. reflexivity.
  - unfold setViewportSize, isAspectLocked, getProjectionMode, setAspectRatio.
    destruct (feq _ _); cbn; apply orb_false_r.
  - unfold setViewportSize, setAspectRatio.
    destruct (feq _ _); reflexivity.
Qed.

End camera_more.

(** ** More on the asset reader *)

Section pipeline_more.

Import runtime.

Variable E : environment.

Ltac exec := unfold mbind, M_bind, bind, mret, M_ret, ret, raise; cbn.

Section stability.

Variable R : machine -> machine -> Prop.
Hypothesis R_refl : forall m, R m m.
Hypothesis R_trans : forall a b c, R a b -> R b c -> R a c.

Lemma stable_mret {A} (a : A) : stable R (mret a).
Proof. intros m r m' [= <- <-]. apply R_refl. Qed.

Lemma stable_raise {A} f : stable R (@raise A f).
Proof. intros m r m' [= <- <-]. apply R_refl. Qed.

Lemma stable_bind {A B} (c : M A) (k : A -> M B) :
  stable R c -> (forall a, stable R (k a)) -> stable R (c ≫= k).
Proof.
  intros Hc Hk m r m'. unfold mbind, M_bind, bind.
  destruct (c m) as [[a|f] m1] eqn:Hcm; intros Hr.
  - eapply R_trans; [eapply Hc, Hcm|eapply Hk, Hr].
  - injection Hr as <- <-. eapply Hc, Hcm.
Qed.

(** Steps that leave the links alone are stable for any relation on the
    links only. *)
Hypothesis R_links : forall m m', links m' = links m -> R m m'.

Lemma stable_emit c : stable R (emit c).
Proof. intros m r m' [= <- <-]. apply R_links. reflexivity. Qed.

Lemma stable_buffer_at p : stable R (buffer_at p).
Proof.
  intros m r m' H. unfold buffer_at in H. apply R_links.
  destruct (buffers m !! p); simplify_eq; reflexivity.
Qed.

Lemma stable_buffer_assign p b : stable R (buffer_assign p b).
Proof. intros m r m' [= <- <-]. apply R_links. reflexivity. Qed.

Lemma stable_wrapper_mesh w : stable R (wrapper_mesh w).
Proof.
  intros m r m' H. unfold wrapper_mesh in H. apply R_links.
  repeat case_match; simplify_eq; reflexivity.
Qed.

Lemma stable_wrapper_mesh_assign w o : stable R (wrapper_mesh_assign w o).
Proof.
  intros m r m' H. unfold wrapper_mesh_assign in H. apply R_links.
  repeat case_match; simplify_eq; reflexivity.
Qed.

Lemma stable_wrapper_material w : stable R (wrapper_material w).
Proof.
  intros m r m' H. unfold wrapper_material in H. apply R_links.
  repeat case_match; simplify_eq; reflexivity.
Qed.

Lemma stable_wrapper_material_assign w o :
  stable R (wrapper_material_assign w o).
Proof.
  intros m r m' H. unfold wrapper_material_assign in H. apply R_links.
  repeat case_match; simplify_eq; reflexivity.
Qed.

Lemma stable_element_address {A} (v : list A) i :
  stable R (element_address v i).
Proof.
  unfold element_address. destruct (v !! i);
    [apply (stable_mret (A := list A)) | apply stable_raise].
Qed.

Ltac stable_step :=
  first
    [ apply stable_mret
    | apply stable_raise
    | apply stable_emit
    | apply stable_buffer_at
    | apply stable_buffer_assign
    | apply stable_wrapper_mesh_assign
    | apply stable_wrapper_mesh
    | apply stable_wrapper_material_assign
    | apply stable_wrapper_material
    | apply stable_element_address
    | assumption
    | apply stable_bind; [| intros ?]
    | match goal with
      | |- stable _ (match ?x with _ => _ end) => destruct x
      end ].

Lemma stable_mesh_invoke w c : stable R (mesh_invoke w c).
Proof. unfold mesh_invoke. repeat stable_step. Qed.

Lemma stable_fetch k p path : stable R (fetch E k p path).
Proof.
  destruct k; cbn [fetch];
    unfold texture_read_memory_func, shader_read_memory_func,
      mesh_read_memory_func, material_read_memory_func,
      prefab_read_memory_func, scene_read_memory_func, open_stream, try_load;
    repeat first [apply stable_mesh_invoke | stable_step].
Qed.

Lemma stable_push_back_uniforms us acc :
  stable R (push_back_uniforms us acc).
Proof.
  revert acc. induction us as [|u us IH]; intros acc; cbn [push_back_uniforms].
  - apply stable_mret.
  - unfold uniform_populate. repeat stable_step. apply IH.
Qed.

Lemma stable_populate_shader mem : stable R (populate_shader E mem).
Proof.
  unfold populate_shader, shader_populate, gfx_getShaderUniforms.
  repeat first [apply stable_push_back_uniforms | stable_step].
Qed.

(** Materialize is stable as soon as the two writes to the target's link
    are. *)
Lemma stable_materialize k result p key b :
  (forall key, stable R (link_set_id result key)) ->
  (forall r, stable R (link_set_asset result r)) ->
  stable R (materialize E k result p key b).
Proof.
  intros Hid Hasset.
  destruct k; cbn [materialize];
    unfold texture_create_resource_func, shader_create_resource_func,
      mesh_create_resource_func, material_create_resource_func,
      prefab_create_resource_func, scene_create_resource_func,
      gfx_copy, make_shared_texture;
    repeat first [apply stable_mesh_invoke | apply stable_populate_shader
                 | apply Hid | apply Hasset | stable_step].
Qed.

End stability.

Lemma fetch_keeps_links k p path m :
  links (fetch E k p path m).2 = links m.
Proof.
  destruct (fetch E k p path m) as [r m'] eqn:H.
  apply (stable_fetch same_links) in H; [exact H| | |].
  - intros ?; reflexivity.
  - unfold same_links. intros a b c H1 H2. rewrite H2, H1. reflexivity.
  - auto.
Qed.

(** X11.  Fetch never writes a link: whatever the kind, the pointer it
    captured and the file, and whether it returns or goes wrong, every
    handle is after Fetch as it was before. *)
Theorem fetch_never_writes_links k p path m :
  links (fetch E k p path m).2 = links m.
Proof.
  destruct (fetch E k p path m) as [r m'] eqn:H. cbn [snd].
  apply (stable_fetch same_links) in H; [exact H|..].
  - intros ?; reflexivity.
  - unfold same_links. intros a b c H1 H2. rewrite H2, H1. reflexivity.
  - auto.
Qed.

Lemma same_links_but_refl h m : same_links_but h m m.
Proof. intros ? ?; reflexivity. Qed.

Lemma same_links_but_trans h a b c :
  same_links_but h a b -> same_links_but h b c -> same_links_but h a c.
Proof. intros H1 H2 l Hl. rewrite (H2 l Hl), (H1 l Hl). reflexivity. Qed.

Lemma same_links_but_links h a b : links b = links a -> same_links_but h a b.
Proof. intros Hab l _. rewrite Hab. reflexivity. Qed.

Lemma stable_link_set_id h key : stable (same_links_but h) (link_set_id h key).
Proof. intros a r b [= <- <-] l Hl. cbn. apply lookup_insert_ne. auto. Qed.

Lemma stable_link_set_asset h r0 :
  stable (same_links_but h) (link_set_asset h r0).
Proof. intros a r b [= <- <-] l Hl. cbn. apply lookup_insert_ne. auto. Qed.

Lemma materialize_keeps_other_links k result p key read_result m l :
  l <> link result ->
  links (materialize E k result p key read_result m).2 !! l = links m !! l.
Proof.
  intros Hl.
  destruct (materialize E k result p key read_result m) as [r m'] eqn:H.
  apply (stable_materialize (same_links_but result)) in H;
    [exact (H l Hl)| | | | |].
  - intros ? ? ?; reflexivity.
  - intros a b c H1 H2 l' Hl'. rewrite (H2 l' Hl'), (H1 l' Hl'). reflexivity.
  - intros a b Hab l' _. rewrite Hab. reflexivity.
  - intros key' a r' b [= <- <-] l' Hl'. cbn. apply lookup_insert_ne. auto.
  - intros r0 a r' b [= <- <-] l' Hl'. cbn. apply lookup_insert_ne. auto.
Qed.


(** X12.  Materialize writes no link other than that of its target: for
    every kind and every outcome, each link but the target's is after
    Materialize as it was before.  Whether the target's link is written
    depends on the kind and on what Fetch left. *)
Theorem materialize_writes_no_other_link k result p key read_result m l :
  l <> link result ->
  links (materialize E k result p key read_result m).2 !! l = links m !! l.
Proof.
  intros Hl.
  destruct (materialize E k result p key read_result m) as [r m'] eqn:H.
  cbn [snd].
  apply (stable_materialize (same_links_but result)) in H;
    [exact (H l Hl)|..].
  - apply same_links_but_refl.
  - apply same_links_but_trans.
  - apply same_links_but_links.
  - apply stable_link_set_id.
  - apply stable_link_set_asset.
Qed.

(** Submitting a load leaves the lanes in order. *)
Lemma serve_lanes_ok r m : lanes_ok m -> lanes_ok (serve E r m).
Proof.
  intros [Hw Hl]. destruct r as [k key mode original|key data size];
    cbn [serve].
  - destruct (load_from_file_tasks E k key mode original m)
      as (p&m'&H&HT&_&HG&_).
    rewrite H. cbn [snd]. split; [|rewrite HG; exact Hl].
    intros i t Hi Hlane. rewrite HT in Hi.
    apply lookup_app_Some in Hi as [Hi|[_ Hi]]; [eauto|].
    destruct (i - length (tasks m))%nat as [|[|j]]; cbn in Hi; simplify_eq;
      cbn in *; try reflexivity; discriminate.
  - cbn. split; [|exact Hl].
    intros i t Hi Hlane.
    apply lookup_app_Some in Hi as [Hi|[_ Hi]]; [eauto|].
    destruct (i - length (tasks m))%nat as [|j]; cbn in Hi; simplify_eq.
Qed.

Lemma history_lanes_ok es m : lanes_ok m -> lanes_ok (history E es m).
Proof.
  revert m. induction es as [|e es IH]; intros m H; cbn [history]; auto.
  apply IH. destruct e as [r|i]; cbn [occur].
  - apply serve_lanes_ok, H.
  - apply run_task_lanes_ok, H.
Qed.

Lemma boot_lanes_ok held : lanes_ok (boot held).
Proof. split; [intros i t Hi; destruct i; discriminate Hi|constructor]. Qed.

(** X13.  However many loads are requested, from files of any kind in
    either mode and from memory, and in whatever order the task system
    executes the tasks, every graphics-API call is made on the main
    lane. *)
Theorem graphics_calls_stay_on_main_lane (es : list event) held :
  Forall on_its_lane (log (history E es (boot held))).
Proof.
  destruct (history_lanes_ok es (boot held) (boot_lanes_ok held))
    as [_ Hlog].
  exact Hlog.
Qed.

(** X14.  In any such history, executing a task of the worker lane writes
    no link: handles are only ever written from the main lane. *)
Theorem worker_lane_never_writes_links (es : list event) held i t :
  let m := history E es (boot held) in
  tasks m !! i = Some t -> task_lane t = worker_lane ->
  links (run_task E i m) = links m.
Proof.
  cbn zeta. intros Ht Hlane.
  destruct (history_lanes_ok es (boot held) (boot_lanes_ok held)) as [Hw _].
  set (m := history E es (boot held)) in *.
  destruct (run_task_cases E i m) as [->|(t'&arg&r&m'&Hc&Ht'&Hv&Ha&Hi&->)];
    [reflexivity|].
  assert (t' = t) by congruence. subst t'.
  pose proof (Hw i t Ht Hlane) as Hf.
  assert (Hlinks : links m' = links m).
  { destruct (task_work t) as [k p path| |]; try discriminate Hf.
    destruct arg as [v|]; cbn [invoke] in Hi.
    - injection Hi as <- <-. reflexivity.
    - unfold mbind, M_bind, bind in Hi.
      pose proof (fetch_keeps_links k p path
                    (set_lane (task_lane t) m)) as Hfetch.
      destruct (fetch E k p path (set_lane (task_lane t) m)) as [[b|f] m1];
        cbn in Hfetch; injection Hi as <- <-; exact Hfetch. }
  destruct r as [[v w]|f]; exact Hlinks.
Qed.


(** *** Whole loads *)

Lemma invoke_fetch_ok k p path m b m' :
  fetch E k p path m = (ok b, m') ->
  invoke E (read_memory_func k p path) None m
  = (ok (v_bool b, read_memory_func k p path), m').
Proof.
  intros H. cbn [invoke]. unfold mbind, M_bind, bind. rewrite H. reflexivity.
Qed.

Lemma invoke_fetch_ub k p path m f m' :
  fetch E k p path m = (ub f, m') ->
  invoke E (read_memory_func k p path) None m = (ub f, m').
Proof.
  intros H. cbn [invoke]. unfold mbind, M_bind, bind. rewrite H. reflexivity.
Qed.

Lemma invoke_materialize_ok k result p key b m h p' m' :
  materialize E k result p key b m = (ok (h, p'), m') ->
  invoke E (create_resource_func k result p key) (Some (v_bool b)) m
  = (ok (v_handle h, create_resource_func k result p' key), m').
Proof.
  intros H. cbn [invoke]. unfold mbind, M_bind, bind. rewrite H. reflexivity.
Qed.

(** A load whose two stages return: in every schedule either the future
    of the load is not ready and no link has been written, or it is ready
    and the machine is the one Materialize left. *)
Lemma two_stage_ready m1 t0 t1 v0 w0 m0 v1 w1 m2 :
  crashed m1 = None -> tasks m1 = [t0; t1] ->
  task_after t0 = None -> task_value t0 = None ->
  task_after t1 = Some 0%nat -> task_value t1 = None ->
  invoke E (task_work t0) None (set_lane (task_lane t0) m1)
    = (ok (v0, w0), m0) ->
  links m0 = links m1 ->
  invoke E (task_work t1) (Some v0)
    (set_lane (task_lane t1) (set_tasks (alter (fire v0 w0) 0%nat) m0))
    = (ok (v1, w1), m2) ->
  let final := set_tasks (alter (fire v1 w1) 1%nat) m2 in
  (forall schedule,
      let r := run_schedule E schedule m1 in
      (future_value r 1 = None /\ links r = links m1 /\ crashed r = None)
      \/ (future_value r 1 = Some v1 /\ r = final))
  /\ run_schedule E [0; 1]%nat m1 = final
  /\ future_value final 1 = Some v1.
Proof.
  intros HC HT A0 V0 A1 V1 I0 HL I1. cbn zeta.
  destruct (two_stage_run E m1 _ _ _ _ _ _ _ _ HC HT A0 V0 A1 V1 I0 I1)
    as [R0 R1].
  destruct (emits_invoke E _ _ _ _ _ I0) as (T0&_&C0&_). cbn in T0, C0.
  destruct (emits_invoke E _ _ _ _ _ I1) as (T1&_&C1&_). cbn in T1, C1.
  assert (F2 : future_value (set_tasks (alter (fire v1 w1) 1%nat) m2) 1
               = Some v1).
  { unfold future_value. cbn. rewrite T1, T0, HT. reflexivity. }
  split; [|split; [|exact F2]].
  - intros schedule.
    destruct (two_stage_reachable E m1 _ _ HT V0 A1 schedule)
      as [-> | [-> | ->]].
    + left. unfold future_value. rewrite HT. cbn. rewrite V1. auto.
    + left. rewrite R0. unfold future_value. cbn. rewrite T0, HT. cbn.
      rewrite V1, HL, C0. auto.
    + right. rewrite R1. auto.
  - cbn [run_schedule]. exact R1.
Qed.

(** A load whose Fetch goes wrong: every schedule leaves the machine as
    the request left it, or has run Fetch into its fault. *)
Lemma fetch_crash_outcome m1 t0 t1 f m0 schedule :
  crashed m1 = None -> tasks m1 = [t0; t1] ->
  task_after t0 = None -> task_value t0 = None ->
  task_after t1 = Some 0%nat -> task_value t1 = None ->
  invoke E (task_work t0) None (set_lane (task_lane t0) m1) = (ub f, m0) ->
  links m0 = links m1 ->
  let r := run_schedule E schedule m1 in
  future_value r 0 = None /\ future_value r 1 = None /\ links r = links m1
  /\ (r = m1 \/ crashed r = Some f).
Proof.
  intros HC HT A0 V0 A1 V1 I0 HL. cbn zeta.
  destruct (emits_invoke E _ _ _ _ _ I0) as (T0&_&C0&_). cbn in T0, C0.
  assert (R0 : run_task E 0 m1 = set_crashed f m0).
  { apply run_task_crash with t0 None; auto.
    - rewrite HT. reflexivity.
    - unfold ready_argument. rewrite A0. reflexivity. }
  assert (R1 : run_task E 1 (run_task E 0 m1) = set_crashed f m0).
  { rewrite R0. apply run_task_crashed. discriminate. }
  destruct (two_stage_reachable E m1 _ _ HT V0 A1 schedule)
    as [-> | [-> | ->]]; rewrite ?R1, ?R0; unfold future_value; cbn;
    rewrite ?T0, HT; cbn; rewrite V0, V1; auto.
Qed.

Lemma stream_bytes_in k path :
  k = texture \/ k = shader ->
  stream_bytes E (open_mode k) path = default [] (files E !! path).
Proof. intros [-> | ->]; reflexivity. Qed.

Lemma stream_bytes_in_out k path :
  k = prefab \/ k = scene ->
  stream_bytes E (open_mode k) path
  = if writable E path then default [] (files E !! path) else [].
Proof. intros [-> | ->]; reflexivity. Qed.

Lemma fetch_buffer_run k p path m :
  uses_buffer k = true ->
  exists m0,
    fetch E k (Some p) path m = (ok true, m0)
    /\ buffers m0 !! p = Some (stream_bytes E (open_mode k) path)
    /\ links m0 = links m.
Proof.
  intros Hu.
  exists (mk_machine (links m)
            (<[p := stream_bytes E (open_mode k) path]> (buffers m))
            (meshes m) (materials m) (tasks m) (lane_now m)
            (log m ++ [(lane_now m, fs_open_call path)]) (crashed m)).
  split; [destruct k; try discriminate; reflexivity|].
  split; [apply lookup_insert_eq|reflexivity].
Qed.

(** Materialize of a texture or shader when the binding layer returns no
    memory block. *)
Lemma materialize_without_memory k result p key b m bytes :
  k = texture \/ k = shader ->
  buffers m !! p = Some bytes -> bytes <> [] ->
  copy E (Some bytes) (to_uint32 (length bytes)) = None ->
  exists m', materialize E k result (Some p) key b m = (ok (result, None), m')
             /\ links m' = links m.
Proof.
  intros [-> | ->] Hb Hne Hc; cbn [materialize];
    unfold texture_create_resource_func, shader_create_resource_func,
      buffer_at, gfx_copy; exec;
    rewrite Hb, (vector_nonempty _ Hne), Hc; cbn;
    (eexists; split; reflexivity).
Qed.

Lemma materialize_with_memory k result p key b m bytes mem :
  k = texture \/ k = shader ->
  buffers m !! p = Some bytes -> bytes <> [] ->
  copy E (Some bytes) (to_uint32 (length bytes)) = Some mem ->
  exists m', materialize E k result (Some p) key b m = (ok (result, None), m')
             /\ link_of m' result = mk_link key (Some (built_from E k mem)).
Proof.
  intros [-> | ->] Hb Hne Hc; cbn [materialize built_from].
  - destruct (texture_create_resource_func_run E result p key b m bytes mem
                Hb Hne Hc) as (m'&Hr&Hl&_). eauto.
  - destruct (shader_create_resource_func_run E result p key b m bytes mem
                Hb Hne Hc) as (m'&Hr&Hl&_). eauto.
Qed.


(** The two stages of a load from a machine at rest, given what Fetch and
    Materialize return. *)
Lemma load_runs k key mode original held p m1 b0 m0 h p' m2 :
  tasks m1 =
    [ mk_task (fetch_lane mode) None
        (read_memory_func k (Some p) (compiled_path E k key)) None;
      mk_task main_lane (Some 0%nat)
        (create_resource_func k original (Some p) key) None ] ->
  links m1 = held -> crashed m1 = None ->
  fetch E k (Some p) (compiled_path E k key) (set_lane (fetch_lane mode) m1)
    = (ok b0, m0) ->
  materialize E k original (Some p) key b0
    (set_lane main_lane
       (set_tasks
          (alter (fire (v_bool b0)
                    (read_memory_func k (Some p) (compiled_path E k key)))
             0%nat) m0))
    = (ok (h, p'), m2) ->
  (forall schedule,
      let r := run_schedule E schedule m1 in
      (future_value r 1 = None /\ links r = held /\ crashed r = None)
      \/ (future_value r 1 = Some (v_handle h)
          /\ links r = links m2 /\ buffers r = buffers m2
          /\ crashed r = None))
  /\ future_value (run_schedule E [0; 1]%nat m1) 1 = Some (v_handle h).
Proof.
  intros HT HL HC Hf Hm.
  pose proof (fetch_keeps_links k (Some p) (compiled_path E k key)
                (set_lane (fetch_lane mode) m1)) as Hk.
  rewrite Hf in Hk. cbn in Hk.
  destruct (two_stage_ready m1 _ _ _ _ _ _ _ _ HC HT eq_refl eq_refl eq_refl
              eq_refl (invoke_fetch_ok _ _ _ _ _ _ Hf) Hk
              (invoke_materialize_ok _ _ _ _ _ _ _ _ _ Hm))
    as (Hall&Hrun&Hdone).
  destruct (emits_materialize E _ _ _ _ _ _ _ _ Hm) as (_&_&C2&_).
  destruct (emits_fetch E _ _ _ _ _ _ Hf) as (_&_&C0&_).
  cbn in C2, C0.
  split; [|rewrite Hrun; exact Hdone].
  intros schedule. cbn zeta.
  destruct (Hall schedule) as [(F&L&C)|(F&Hr)].
  - left. rewrite <- HL. auto.
  - right. split; [exact F|]. rewrite Hr. cbn. split; [reflexivity|].
    split; [reflexivity|]. congruence.
Qed.

(** X15.  For a texture or a shader in either mode: when the file holds
    bytes but the binding layer returns no memory block, the load still
    completes with the original handle, and no link is ever written. *)
Theorem copy_failure_keeps_handle k key mode original held schedule bytes :
  k = texture \/ k = shader ->
  files E !! compiled_path E k key = Some bytes -> bytes <> [] ->
  copy E (Some bytes) (to_uint32 (length bytes)) = None ->
  let m1 := (load_from_file E k key mode original (boot held)).2 in
  let r := run_schedule E schedule m1 in
  links r = held /\ crashed r = None
  /\ (forall v, future_value r 1 = Some v -> v = v_handle original)
  /\ future_value (run_schedule E [0; 1]%nat m1) 1
     = Some (v_handle original).
Proof.
  intros Hk Hfile Hne Hc.
  destruct (boot_load E k key mode original held) as (p&m1&H&HT&HL&HG&HC&HA).
  rewrite H. cbn [snd]. cbn zeta.
  assert (Hu : uses_buffer k = true) by (destruct Hk as [-> | ->]; reflexivity).
  destruct (fetch_buffer_run k p (compiled_path E k key)
              (set_lane (fetch_lane mode) m1) Hu) as (m0&Hf&Hb&Hl0).
  rewrite (stream_bytes_in k _ Hk), Hfile in Hb. cbn in Hb.
  match goal with |- context [run_schedule E schedule m1] =>
    destruct (materialize_without_memory k original p key true
                (set_lane main_lane
                   (set_tasks
                      (alter (fire (v_bool true)
                                (read_memory_func k (Some p)
                                   (compiled_path E k key))) 0%nat) m0))
                bytes Hk Hb Hne Hc) as (m2&Hm&Hl2)
  end.
  destruct (load_runs k key mode original held p m1 true m0 original None m2
              HT HL HC Hf Hm) as [Hall Hdone].
  cbn in Hl2. rewrite Hl0 in Hl2. cbn in Hl2.
  split; [|split; [|split; [|exact Hdone]]].
  - destruct (Hall schedule) as [(_&L&_)|(_&L&_)]; congruence.
  - destruct (Hall schedule) as [(_&_&C)|(_&_&_&C)]; exact C.
  - intros v. destruct (Hall schedule) as [(F&_)|(F&_)]; congruence.
Qed.

(** X16.  For a texture or a shader in either mode: when the file holds
    bytes and the binding layer returns a memory block, then whenever the
    future of the load is ready it holds the original handle, whose link
    carries the key and the resource built from that block (for a shader
    with its uniforms in reflection order), every other link being as
    before; and running Fetch then Materialize makes the future ready. *)
Theorem texture_or_shader_load_publishes k key mode original held bytes mem :
  k = texture \/ k = shader ->
  files E !! compiled_path E k key = Some bytes -> bytes <> [] ->
  copy E (Some bytes) (to_uint32 (length bytes)) = Some mem ->
  let m1 := (load_from_file E k key mode original (boot held)).2 in
  (forall schedule v,
      let r := run_schedule E schedule m1 in
      future_value r 1 = Some v ->
      v = v_handle original
      /\ link_of r original = mk_link key (Some (built_from E k mem))
      /\ (forall l, l <> link original -> links r !! l = held !! l))
  /\ future_value (run_schedule E [0; 1]%nat m1) 1
     = Some (v_handle original).
Proof.
  intros Hk Hfile Hne Hc.
  destruct (boot_load E k key mode original held) as (p&m1&H&HT&HL&HG&HC&HA).
  rewrite H. cbn [snd]. cbn zeta.
  assert (Hu : uses_buffer k = true) by (destruct Hk as [-> | ->]; reflexivity).
  destruct (fetch_buffer_run k p (compiled_path E k key)
              (set_lane (fetch_lane mode) m1) Hu) as (m0&Hf&Hb&Hl0).
  rewrite (stream_bytes_in k _ Hk), Hfile in Hb. cbn in Hb.
  destruct (materialize_with_memory k original p key true
              (set_lane main_lane
                 (set_tasks
                    (alter (fire (v_bool true)
                              (read_memory_func k (Some p)
                                 (compiled_path E k key))) 0%nat) m0))
              bytes mem Hk Hb Hne Hc) as (m2&Hm&Hl2).
  destruct (load_runs k key mode original held p m1 true m0 original None m2
              HT HL HC Hf Hm) as [Hall Hdone].
  split; [|exact Hdone].
  intros schedule v Hv.
  destruct (Hall schedule) as [(F&_)|(F&L&_)]; [congruence|].
  split; [congruence|]. split.
  - unfold link_of in *. rewrite L. exact Hl2.
  - intros l Hl. rewrite L.
    match type of Hm with materialize _ _ _ _ _ _ ?mm = _ =>
      pose proof (materialize_keeps_other_links k original (Some p) key true
                    mm l Hl) as Hother
    end.
    rewrite Hm in Hother. cbn in Hother. rewrite Hother, Hl0. cbn.
    rewrite HL. reflexivity.
Qed.


(** X17.  For a prefab or a scene in either mode, whatever the file: when
    the future of the load is ready it holds the original handle, whose
    link carries the key and a payload whose stream holds what the
    [std::fstream] opened for reading and writing has read: the bytes of
    the compiled file when it exists and may be written, and nothing when
    it is missing or may not be written. *)
Theorem document_load_keeps_bytes k key mode original held :
  k = prefab \/ k = scene ->
  let m1 := (load_from_file E k key mode original (boot held)).2 in
  (forall schedule v,
      let r := run_schedule E schedule m1 in
      future_value r 1 = Some v ->
      v = v_handle original
      /\ exists payload,
          link_of r original = mk_link key (Some payload)
          /\ document_of payload r
             = Some (if writable E (compiled_path E k key)
                     then default [] (files E !! compiled_path E k key)
                     else []))
  /\ future_value (run_schedule E [0; 1]%nat m1) 1
     = Some (v_handle original).
Proof.
  intros Hk.
  destruct (boot_load E k key mode original held) as (p&m1&H&HT&HL&HG&HC&HA).
  rewrite H. cbn [snd]. cbn zeta.
  assert (Hu : uses_buffer k = true) by (destruct Hk as [-> | ->]; reflexivity).
  destruct (fetch_buffer_run k p (compiled_path E k key)
              (set_lane (fetch_lane mode) m1) Hu) as (m0&Hf&Hb&Hl0).
  assert (Hm : exists m2 payload,
             materialize E k original (Some p) key true
               (set_lane main_lane
                  (set_tasks
                     (alter (fire (v_bool true)
                               (read_memory_func k (Some p)
                                  (compiled_path E k key))) 0%nat) m0))
             = (ok (original, Some p), m2)
             /\ link_of m2 original = mk_link key (Some payload)
             /\ buffers m2 = buffers m0
             /\ forall m, document_of payload m = buffers m !! p).
  { destruct Hk as [-> | ->]; cbn [materialize].
    - match goal with |- context [prefab_create_resource_func _ _ _ _ ?mm] =>
        destruct (prefab_create_resource_func_run original (Some p) key true mm)
          as (m2&Hr&Hl&Hbuf&_) end.
      exists m2, (res_prefab (mk_prefab (Some p))). auto.
    - match goal with |- context [scene_create_resource_func _ _ _ _ ?mm] =>
        destruct (scene_create_resource_func_run original (Some p) key true mm)
          as (m2&Hr&Hl&Hbuf&_) end.
      exists m2, (res_scene (mk_scene (Some p))). auto. }
  destruct Hm as (m2&payload&Hm&Hl2&Hb2&Hdoc).
  destruct (load_runs k key mode original held p m1 true m0 original (Some p)
              m2 HT HL HC Hf Hm) as [Hall Hdone].
  split; [|exact Hdone].
  intros schedule v Hv.
  destruct (Hall schedule) as [(F&_)|(F&L&B&_)]; [congruence|].
  split; [congruence|]. exists payload. split.
  - unfold link_of in *. rewrite L. exact Hl2.
  - rewrite Hdoc, B, Hb2, Hb, (stream_bytes_in_out k _ Hk). reflexivity.
Qed.

Lemma fetch_material_run p path m obj :
  materials m !! p = Some obj ->
  exists m0,
    fetch E material (Some p) path m = (ok true, m0)
    /\ materials m0 !! p
       = Some (default obj (decode_material E (default [] (files E !! path))))
    /\ links m0 = links m.
Proof.
  intros Ho. cbn [fetch].
  unfold material_read_memory_func, open_stream, try_load, wrapper_material,
    wrapper_material_assign. exec. rewrite Ho.
  destruct (decode_material E _); cbn;
    (eexists; split; [reflexivity|]); cbn;
    (split; [apply lookup_insert_eq|reflexivity]).
Qed.

(** X18.  For a material in either mode, whatever the file: when the
    future of the load is ready it holds the original handle, whose link
    carries the key and the decoded material, or a default-constructed
    material when the file is missing or cannot be decoded. *)
Theorem material_load_publishes_decoded_or_default key mode original held :
  let m1 := (load_from_file E material key mode original (boot held)).2 in
  let decoded :=
    decode_material E
      (default [] (files E !! compiled_path E material key)) in
  (forall schedule v,
      let r := run_schedule E schedule m1 in
      future_value r 1 = Some v ->
      v = v_handle original
      /\ link_of r original
         = mk_link key (Some (res_material (default [] decoded))))
  /\ future_value (run_schedule E [0; 1]%nat m1) 1
     = Some (v_handle original).
Proof.
  destruct (boot_load E material key mode original held)
    as (p&m1&H&HT&HL&HG&HC&HA).
  rewrite H. cbn [snd]. cbn zeta. cbn [allocated] in HA.
  destruct (fetch_material_run p (compiled_path E material key)
              (set_lane (fetch_lane mode) m1) [] HA) as (m0&Hf&Hb&Hl0).
  match type of Hb with _ = Some ?obj =>
    destruct (material_create_resource_func_run original p key true
                (set_lane main_lane
                   (set_tasks
                      (alter (fire (v_bool true)
                                (read_memory_func material (Some p)
                                   (compiled_path E material key))) 0%nat) m0))
                obj Hb) as (m2&Hm&Hl2&_)
  end.
  destruct (load_runs material key mode original held p m1 true m0 original
              None m2 HT HL HC Hf Hm) as [Hall Hdone].
  split; [|exact Hdone].
  intros schedule v Hv.
  destruct (Hall schedule) as [(F&_)|(F&L&_)]; [congruence|].
  split; [congruence|]. unfold link_of in *. rewrite L. exact Hl2.
Qed.

Lemma fetch_mesh_run p path m obj data :
  meshes m !! p = Some obj ->
  decode_mesh E (default [] (files E !! path)) = Some data ->
  vertex_data data <> [] ->
  exists m0,
    fetch E mesh (Some p) path m = (ok true, m0)
    /\ meshes m0 !! p = Some (obj ++ prepared_from data)
    /\ links m0 = links m.
Proof.
  intros Ho Hd Hv. cbn [fetch].
  unfold mesh_read_memory_func, open_stream, try_load, mesh_invoke,
    wrapper_mesh, wrapper_mesh_assign, element_address. exec. rewrite Hd.
  cbn. rewrite Ho. cbn.
  destruct (vertex_data data) as [|x rest] eqn:Hvd; [congruence|]. cbn.
  rewrite !lookup_insert_eq. cbn. rewrite !lookup_insert_eq. cbn.
  rewrite !lookup_insert_eq. cbn. rewrite !lookup_insert_eq. cbn.
  rewrite !lookup_insert_eq. cbn.
  eexists. split; [reflexivity|]. cbn.
  split; [|reflexivity]. rewrite lookup_insert_eq.
  unfold prepared_from. rewrite Hvd, <- !app_assoc. reflexivity.
Qed.

(** X19.  For a mesh in either mode whose compiled file decodes to a load
    record with vertex data: when the future of the load is ready it holds
    the original handle; the mesh has received the six preparation calls
    and the two buffer builds in order, and the link carries the key and
    that mesh if its status is then prepared, and no link has been written
    if it is not. *)
Theorem mesh_load_publishes_iff_prepared key mode original held data :
  decode_mesh E (default [] (files E !! compiled_path E mesh key))
    = Some data ->
  vertex_data data <> [] ->
  let built := prepared_from data ++ [build_vb; build_ib] in
  let m1 := (load_from_file E mesh key mode original (boot held)).2 in
  (forall schedule v,
      let r := run_schedule E schedule m1 in
      future_value r 1 = Some v ->
      v = v_handle original
      /\ (get_status E built = prepared ->
          link_of r original = mk_link key (Some (res_mesh built)))
      /\ (get_status E built <> prepared -> links r = held))
  /\ future_value (run_schedule E [0; 1]%nat m1) 1
     = Some (v_handle original).
Proof.
  intros Hd Hv.
  destruct (boot_load E mesh key mode original held)
    as (p&m1&H&HT&HL&HG&HC&HA).
  rewrite H. cbn [snd]. cbn zeta. cbn [allocated] in HA.
  destruct (fetch_mesh_run p (compiled_path E mesh key)
              (set_lane (fetch_lane mode) m1) [] data HA Hd Hv)
    as (m0&Hf&Hb&Hl0).
  cbn [app] in Hb.
  destruct (mesh_create_resource_func_run E original p key true
              (set_lane main_lane
                 (set_tasks
                    (alter (fire (v_bool true)
                              (read_memory_func mesh (Some p)
                                 (compiled_path E mesh key))) 0%nat) m0))
              (prepared_from data) Hb) as (m2&Hm&Hyes&Hno&_).
  destruct (load_runs mesh key mode original held p m1 true m0 original
              None m2 HT HL HC Hf Hm) as [Hall Hdone].
  split; [|exact Hdone].
  intros schedule v Hr.
  destruct (Hall schedule) as [(F&_)|(F&L&_)]; [congruence|].
  split; [congruence|]. split.
  - intros Hp. unfold link_of in *. rewrite L. apply Hyes, Hp.
  - intros Hp. rewrite L, (Hno Hp). cbn. rewrite Hl0. exact HL.
Qed.

Lemma fetch_mesh_crash p path m obj :
  files E !! path = None -> decode_mesh E [] = None ->
  meshes m !! p = Some obj ->
  exists m0, fetch E mesh (Some p) path m = (ub (out_of_range 0 0), m0).
Proof.
  intros Hf Hd Hw. cbn [fetch].
  unfold mesh_read_memory_func, open_stream, try_load, mesh_invoke,
    wrapper_mesh, wrapper_mesh_assign. exec.
  rewrite Hf. cbn. rewrite Hd. cbn. rewrite Hw. eexists. reflexivity.
Qed.

(** X20.  A mesh load of a missing file cannot complete without the
    index into the empty vertex data being executed.  In every schedule
    the machine is either exactly as the request left it, with neither
    future ready and no link written, or Fetch has executed that index,
    which the language leaves undefined; executing Fetch once does so.
    Nothing is said of what the program does afterwards. *)
Theorem mesh_load_of_missing_file_needs_undefined_index key mode original
    held schedule :
  files E !! compiled_path E mesh key = None -> decode_mesh E [] = None ->
  let m1 := (load_from_file E mesh key mode original (boot held)).2 in
  let r := run_schedule E schedule m1 in
  (r = m1 \/ crashed r = Some (out_of_range 0 0))
  /\ (crashed r = None ->
      future_value r 0 = None /\ future_value r 1 = None /\ links r = held)
  /\ crashed (run_schedule E [0]%nat m1) = Some (out_of_range 0 0).
Proof.
  intros Hfile Hd.
  destruct (boot_load E mesh key mode original held)
    as (p&m1&H&HT&HL&HG&HC&HA).
  rewrite H. cbn [snd]. cbn zeta. cbn [allocated] in HA.
  destruct (fetch_mesh_crash p (compiled_path E mesh key)
              (set_lane (fetch_lane mode) m1) [] Hfile Hd HA) as (m0&Hf).
  pose proof (fetch_keeps_links mesh (Some p) (compiled_path E mesh key)
                (set_lane (fetch_lane mode) m1)) as Hk.
  rewrite Hf in Hk. cbn in Hk.
  pose proof (invoke_fetch_ub _ _ _ _ _ _ Hf) as I0.
  destruct (fetch_crash_outcome m1 _ _ _ _ schedule HC HT eq_refl eq_refl
              eq_refl eq_refl I0 Hk) as (F0&F1&L&Hcase).
  split; [exact Hcase|]. split.
  - intros _. split; [exact F0|]. split; [exact F1|congruence].
  - cbn [run_schedule].
    rewrite (run_task_crash E 0 m1 _ None _ _ HC
               ltac:(rewrite HT; reflexivity) eq_refl eq_refl I0).
    reflexivity.
Qed.


End pipeline_more.

(** ** Sample runs of the further properties *)

Section more_samples.

Import Camera.
Import CameraState.
Import runtime.

Lemma clip_set_then_get_witness :
  is_nan sample_distance = false
  /\ exists c', Camera.setNearClip 2 sample_distance sample_camera = Some c'
       /\ feq (mNearClip c') sample_distance = true
       /\ mFarClip c' = sample_distance.
Proof.
  split; [reflexivity|].
  destruct (clip_set_then_get sample_camera sample_distance 0 eq_refl)
    as [(c'&H1&H2&H3) _].
  exists c'. repeat split; assumption.
Defined.


Lemma zoom_factor_clamped_witness :
  is_nan (of_uint32 50000) = false
  /\ zoom_in_range (setZoomFactor (of_uint32 50000) constructed).
Proof.
  split; [reflexivity|].
  apply (proj1 (zoom_factor_clamped (of_uint32 50000) constructed)).
  reflexivity.
Defined.

Lemma setAAData_bounds_witness :
  (0 <= 3)%Z
  /\ setAAData sample_halton (mkSize 640 480) 3 3 constructed = None.
Proof.
  split; [lia|].
  apply (setAAData_bounds sample_halton (mkSize 640 480) 3 3 constructed);
    [lia | split; [right; left; reflexivity | lia]].
Defined.

Lemma sample_calls_usable : Forall usable sample_calls.
Proof.
  unfold sample_calls.
  repeat constructor; cbn; intros; lia.
Defined.

Lemma camera_calls_keep_clip_order_witness :
  Forall usable sample_calls
  /\ exists s', perform_all sample_halton sample_calls constructed = Some s'
       /\ clip_ordered (clip s').
Proof.
  split; [exact sample_calls_usable|].
  apply (camera_calls_keep_clip_order sample_halton sample_calls
           sample_calls_usable).
Defined.

Lemma camera_calls_keep_zoom_in_range_witness :
  Forall usable sample_calls
  /\ exists s', perform_all sample_halton sample_calls constructed = Some s'
       /\ zoom_in_range s'.
Proof.
  split; [exact sample_calls_usable|].
  apply (camera_calls_keep_zoom_in_range sample_halton sample_calls
           sample_calls_usable).
Defined.

Lemma aspect_only_refresh_unreachable_witness :
  perform_all sample_halton sample_calls constructed = Some sample_state
  /\ (getProj sample_state).1 <> aspect_patched.
Proof.
  assert (H : perform_all sample_halton sample_calls constructed
              = Some sample_state) by (vm_compute; reflexivity).
  split; [exact H|].
  apply (aspect_only_refresh_unreachable sample_halton sample_calls
           sample_state H).
Defined.

Lemma materialize_writes_no_other_link_witness :
  7%nat <> link sample_handle
  /\ links (materialize sample_env texture sample_handle (Some 0%nat) "foo"
              true fetched_bytes).2 !! 7%nat
     = links fetched_bytes !! 7%nat.
Proof.
  assert (H : 7%nat <> link sample_handle) by (vm_compute; lia).
  split; [exact H|].
  apply (materialize_writes_no_other_link sample_env texture sample_handle
           (Some 0%nat) "foo" true fetched_bytes 7%nat H).
Defined.

Lemma worker_lane_never_writes_links_witness :
  (tasks (history sample_env
            [requested (from_file texture "foo" async sample_handle)]
            (boot ∅)) !! 0%nat
   = Some (mk_task worker_lane None
             (read_memory_func texture (Some 0%nat) "foo.asset") None)
   /\ task_lane (mk_task worker_lane None
                   (read_memory_func texture (Some 0%nat) "foo.asset") None)
      = worker_lane)
  /\ links (run_task sample_env 0%nat
              (history sample_env
                 [requested (from_file texture "foo" async sample_handle)]
                 (boot ∅)))
     = links (history sample_env
                [requested (from_file texture "foo" async sample_handle)]
                (boot ∅)).
Proof.
  assert (H : tasks (history sample_env
                       [requested (from_file texture "foo" async
                                     sample_handle)]
                       (boot ∅)) !! 0%nat
              = Some (mk_task worker_lane None
                        (read_memory_func texture (Some 0%nat) "foo.asset")
                        None)) by (vm_compute; reflexivity).
  split; [split; [exact H|reflexivity]|].
  apply (worker_lane_never_writes_links sample_env
           [requested (from_file texture "foo" async sample_handle)] ∅
           0%nat _ H eq_refl).
Defined.

Lemma copy_failure_keeps_handle_witness :
  ((texture = texture \/ texture = shader)
   /\ files exhausted_env !! compiled_path exhausted_env texture "foo"
      = Some [x01; x02; x03]
   /\ [x01; x02; x03] <> []
   /\ copy exhausted_env (Some [x01; x02; x03])
        (to_uint32 (length [x01; x02; x03])) = None)
  /\ links (run_schedule exhausted_env [0; 1]%nat
              (load_from_file exhausted_env texture "foo" async
                 sample_handle (boot (earlier (res_material [])))).2)
     = earlier (res_material []).
Proof.
  assert (Hf : files exhausted_env !! compiled_path exhausted_env texture
                 "foo" = Some [x01; x02; x03]) by (vm_compute; reflexivity).
  assert (Hne : [x01; x02; x03] <> []) by discriminate.
  split; [repeat split; try assumption; left; reflexivity|].
  apply (copy_failure_keeps_handle exhausted_env texture "foo" async
           sample_handle (earlier (res_material [])) [0; 1]%nat
           [x01; x02; x03] (or_introl eq_refl) Hf Hne eq_refl).
Defined.

Lemma texture_or_shader_load_publishes_witness :
  ((shader = texture \/ shader = shader)
   /\ files sample_env !! compiled_path sample_env shader "foo"
      = Some [x01; x02; x03]
   /\ [x01; x02; x03] <> []
   /\ copy sample_env (Some [x01; x02; x03])
        (to_uint32 (length [x01; x02; x03]))
      = Some (mkMemory [x01; x02; x03] 3))
  /\ future_value
       (run_schedule sample_env [0; 1]%nat
          (load_from_file sample_env shader "foo" async sample_handle
             (boot ∅)).2) 1%nat
     = Some (v_handle sample_handle).
Proof.
  assert (Hf : files sample_env !! compiled_path sample_env shader "foo"
               = Some [x01; x02; x03]) by (vm_compute; reflexivity).
  assert (Hne : [x01; x02; x03] <> []) by discriminate.
  split; [repeat split; try assumption; right; reflexivity|].
  apply (texture_or_shader_load_publishes sample_env shader "foo" async
           sample_handle ∅ [x01; x02; x03] (mkMemory [x01; x02; x03] 3)
           (or_intror eq_refl) Hf Hne eq_refl).
Defined.

Lemma document_load_keeps_bytes_witness :
  (prefab = prefab \/ prefab = scene)
  /\ forall schedule v,
       let r :=
         run_schedule read_only_env schedule
           (load_from_file read_only_env prefab "foo" sync sample_handle
              (boot ∅)).2 in
       future_value r 1%nat = Some v ->
       v = v_handle sample_handle
       /\ exists payload,
           link_of r sample_handle = mk_link "foo" (Some payload)
           /\ document_of payload r = Some [].
Proof.
  split; [left; reflexivity|].
  exact (proj1 (document_load_keeps_bytes read_only_env prefab "foo" sync
                  sample_handle ∅ (or_introl eq_refl))).
Defined.

Lemma mesh_load_publishes_iff_prepared_witness :
  (decode_mesh sample_env
     (default [] (files sample_env !! compiled_path sample_env mesh "foo"))
   = Some (mk_load_data 1 [x01; x02; x03] 1 [0; 1; 2]%Z [] None)
   /\ vertex_data (mk_load_data 1 [x01; x02; x03] 1 [0; 1; 2]%Z [] None)
      <> [])
  /\ future_value
       (run_schedule sample_env [0; 1]%nat
          (load_from_file sample_env mesh "foo" async sample_handle
             (boot ∅)).2) 1%nat
     = Some (v_handle sample_handle).
Proof.
  assert (Hd : decode_mesh sample_env
                 (default [] (files sample_env
                                !! compiled_path sample_env mesh "foo"))
               = Some (mk_load_data 1 [x01; x02; x03] 1 [0; 1; 2]%Z [] None))
    by (vm_compute; reflexivity).
  assert (Hne : vertex_data
                  (mk_load_data 1 [x01; x02; x03] 1 [0; 1; 2]%Z [] None)
                <> []) by discriminate.
  split; [split; assumption|].
  apply (mesh_load_publishes_iff_prepared sample_env "foo" async
           sample_handle ∅ _ Hd Hne).
Defined.

Lemma mesh_load_of_missing_file_needs_undefined_index_witness :
  (files sample_env !! compiled_path sample_env mesh "bar" = None
   /\ decode_mesh sample_env [] = None)
  /\ crashed
       (run_schedule sample_env [0]%nat
          (load_from_file sample_env mesh "bar" async sample_handle
             (boot ∅)).2)
     = Some (out_of_range 0 0).
Proof.
  assert (Hf : files sample_env !! compiled_path sample_env mesh "bar"
               = None) by (vm_compute; reflexivity).
  split; [split; [exact Hf|reflexivity]|].
  apply (mesh_load_of_missing_file_needs_undefined_index sample_env "bar"
           async sample_handle ∅ [0; 1; 0; 1]%nat Hf eq_refl).
Defined.

End more_samples.
